(** * Sydney light-rail alert pipeline: model and properties

    A shallow embedding of [lightrail_service_status_alert.py],
    [bigquery_interface.py] and [lightrail_timetable_alert.py].

    - Parsed JSON (the value of [response.json()]) is the inductive type
      [Py.value]; Python's subscripting, iteration, [len], [==] and
      [str.replace] on such values are the functions of module [Py].
    - Python exceptions are the constructors of [Py.exn]; code that can raise
      returns a [Py.result].
    - Code that talks to the outside (HTTP feed, BigQuery, SMTP) runs in the
      monad [M]: it reads the environment of one run ([env]: what the feed,
      the BigQuery API and the SMTP server answer) and threads the [world]
      (the BigQuery table, the mails delivered, the trace of external calls).
      An exception leaves the effects performed before it in place.
    - Logging has no effect on state or results and is left out. *)

From Stdlib Require Import List String Ascii ZArith Bool Lia DecimalString.
From Stdlib Require Import Permutation.
From Stdlib Require Import Floats.SpecFloat.
Import ListNotations.

#[local] Set Warnings "-register-all".

Local Open Scope string_scope.
Local Open Scope Z_scope.

(* ================================================================== *)
(** ** Python values and the primitives the program uses               *)
(* ================================================================== *)

Module Py.

(** The exception classes that occur in the two source files. *)
Inductive exn : Type :=
| KeyError
| IndexError
| TypeError
| AttributeError
| ValueError
| OverflowError
| OSError
| RequestException
| SMTPException
| NotFound
| Conflict
| GoogleCloudError.

(** [NotFound] and [Conflict] are subclasses of [GoogleCloudError]. *)
Definition is_GoogleCloudError (e : exn) : bool :=
  match e with
  | NotFound | Conflict | GoogleCloudError => true
  | _ => false
  end.

Inductive result (A : Type) : Type :=
| Ok (a : A)
| Raise (e : exn).
Arguments Ok {A} a.
Arguments Raise {A} e.

Definition bind {A B} (c : result A) (k : A -> result B) : result B :=
  match c with
  | Ok a => k a
  | Raise e => Raise e
  end.

(** [try: c  except Exception: d] for a pure [c]. *)
Definition try_except {A} (c : result A) (handler : exn -> A) : A :=
  match c with
  | Ok a => a
  | Raise e => handler e
  end.

(** A parsed JSON document as Python sees it: [None], [bool], [int],
    [float], [str], [list], and [dict] with string keys in insertion order. *)
Inductive value : Type :=
| JNull
| JBool (b : bool)
| JInt (n : Z)
| JFloat (f : spec_float)
| JStr (s : string)
| JArr (items : list value)
| JObj (fields : list (string * value)).

Fixpoint assoc {A} (k : string) (kvs : list (string * A)) : option A :=
  match kvs with
  | [] => None
  | (k', v) :: rest => if String.eqb k k' then Some v else assoc k rest
  end.

(** [v[k]] for a string key [k]. *)
Definition getitem (v : value) (k : string) : result value :=
  match v with
  | JObj fields =>
      match assoc k fields with
      | Some x => Ok x
      | None => Raise KeyError
      end
  | _ => Raise TypeError
  end.

(** Python sequence indexing: a negative index counts from the end. *)
Definition seq_index {A} (l : list A) (i : Z) : option A :=
  let n := Z.of_nat (List.length l) in
  let j := if i <? 0 then i + n else i in
  if (0 <=? j) && (j <? n) then nth_error l (Z.to_nat j) else None.

Fixpoint chars (s : string) : list string :=
  match s with
  | EmptyString => []
  | String c rest => String c EmptyString :: chars rest
  end.

(** [v[i]] for an integer index [i]. *)
Definition getindex (v : value) (i : Z) : result value :=
  match v with
  | JArr items =>
      match seq_index items i with
      | Some x => Ok x
      | None => Raise IndexError
      end
  | JStr s =>
      match seq_index (chars s) i with
      | Some c => Ok (JStr c)
      | None => Raise IndexError
      end
  | JObj _ => Raise KeyError
  | _ => Raise TypeError
  end.

(** [for x in v]: the elements of a list, the keys of a dict, the
    characters of a string. *)
Definition iter (v : value) : result (list value) :=
  match v with
  | JArr items => Ok items
  | JObj fields => Ok (map (fun kv => JStr (fst kv)) fields)
  | JStr s => Ok (map JStr (chars s))
  | _ => Raise TypeError
  end.

(** [len(v)]. *)
Definition len (v : value) : result Z :=
  match v with
  | JArr items => Ok (Z.of_nat (List.length items))
  | JObj fields => Ok (Z.of_nat (List.length fields))
  | JStr s => Ok (Z.of_nat (String.length s))
  | _ => Raise TypeError
  end.

Definition newline : ascii := "010"%char.

Fixpoint remove_newlines (s : string) : string :=
  match s with
  | EmptyString => EmptyString
  | String c rest =>
      if Ascii.eqb c newline then remove_newlines rest
      else String c (remove_newlines rest)
  end.

(** [v.replace("\n", "")]: only [str] has the method. *)
Definition replace_newlines (v : value) : result string :=
  match v with
  | JStr s => Ok (remove_newlines s)
  | _ => Raise AttributeError
  end.

(** [v == s] for a string literal [s]. *)
Definition eq_str (v : value) (s : string) : bool :=
  match v with
  | JStr s' => String.eqb s' s
  | _ => false
  end.

(** The exact comparison of a float with an integer. *)
Definition float_eq_Z (f : spec_float) (z : Z) : bool :=
  match f with
  | S754_zero _ => z =? 0
  | S754_finite sign m e =>
      let mz := if sign then Z.neg m else Z.pos m in
      if 0 <=? e then mz * 2 ^ e =? z else mz =? z * 2 ^ (- e)
  | _ => false
  end.

(** [v == n] for an integer literal [n]: [bool] is a subclass of [int]
    ([True == 1], [False == 0]) and a float equals an integer of the same
    numerical value. *)
Definition eq_int (v : value) (n : Z) : bool :=
  match v with
  | JInt m => m =? n
  | JBool b => (if b then 1 else 0) =? n
  | JFloat f => float_eq_Z f n
  | _ => false
  end.

(** [v is None]. *)
Definition is_None (v : value) : bool :=
  match v with
  | JNull => true
  | _ => false
  end.

(** ["sep".join(parts)]. *)
Fixpoint join (sep : string) (parts : list string) : string :=
  match parts with
  | [] => ""
  | [p] => p
  | p :: rest => p ++ sep ++ join sep rest
  end.

End Py.

Import Py.

Declare Scope result_scope.
Delimit Scope result_scope with result.
Notation "x <- c ;; k" := (Py.bind c (fun x => k))
  (at level 61, c at next level, right associativity) : result_scope.

(** What the interpreter and the services around the program do, where the
    two source files only call them. *)
Class Runtime : Type := {
  (** [datetime.fromtimestamp(int(v)).strftime("%Y-%m-%d %H:%M:%S")] in the
      local time zone of the host; [Raise] when [int] or [fromtimestamp]
      raises. *)
  format_epoch : value -> result string;
  (** [repr(v)] of a parsed JSON value. *)
  py_repr : value -> string;
  (** The value BigQuery receives for a [STRING] query parameter built from
      a Python value: [None] is SQL [NULL]. *)
  bq_string_param : value -> option string;
  bq_string_param_str : forall s, bq_string_param (JStr s) = Some s
}.

(** [str(v)], as an f-string renders a value. *)
Definition py_str {RT : Runtime} (v : value) : string :=
  match v with
  | JStr s => s
  | _ => py_repr v
  end.

Definition str_of_bool (b : bool) : string :=
  if b then "True" else "False".

(* ================================================================== *)
(** ** [process_response_alert]                                        *)
(* ================================================================== *)

(** The dict built by [process_response_alert]. *)
Record processed_alert : Type := mkAlert {
  alert_id : value;
  url : value;
  title : value;
  description_html : string;
  formatted_start_date : string;
  formatted_end_date : string;
  l1_line_impacted : bool
}.

(** [line["routeId"] == "IWLR-191" and line["directionId"] == d]: the
    direction is looked up only when the route matches. *)
Definition line_matches (line : value) (d : Z) : result bool :=
  (r <- getitem line "routeId" ;;
   if eq_str r "IWLR-191"
   then (dir <- getitem line "directionId" ;; Ok (eq_int dir d))
   else Ok false)%result.

(** The loop over [affected_lines_json], started with the flag [l1]. *)
Fixpoint impacted_loop (lines : list value) (l1 : bool) : result bool :=
  match lines with
  | [] => Ok l1
  | line :: rest =>
      (c1 <- line_matches line 1 ;;
       if c1 then impacted_loop rest true
       else
         c0 <- line_matches line 0 ;;
         if c0 then impacted_loop rest true
         else impacted_loop rest l1)%result
  end.

Section Canonicalizer.
Context {RT : Runtime}.

(** [entity["alert"][field]["translation"][0]["text"]]. *)
Definition translation_text (entity : value) (field : string) : result value :=
  (a <- getitem entity "alert" ;;
   f <- getitem a field ;;
   tr <- getitem f "translation" ;;
   t0 <- getindex tr 0 ;;
   getitem t0 "text")%result.

(** The argument and the formatting of one date: the period at index [i]
    of [activePeriod], its field [key]. *)
Definition period_date (entity : value) (i : Z) (key : string) : result string :=
  (a <- getitem entity "alert" ;;
   ap <- getitem a "activePeriod" ;;
   p <- getindex ap i ;;
   t <- getitem p key ;;
   format_epoch t)%result.

(** The body of the outer [try]. *)
Definition process_response_alert_body (entity : value) : result processed_alert :=
  (alert_id <- getitem entity "id" ;;
   url <- translation_text entity "url" ;;
   title <- translation_text entity "headerText" ;;
   d <- translation_text entity "descriptionText" ;;
   description_html <- replace_newlines d ;;
   let formatted_start_date :=
     try_except (period_date entity 0 "start") (fun _ => "NULL") in
   let formatted_end_date :=
     try_except (period_date entity (-1) "end") (fun _ => "NULL") in
   a <- getitem entity "alert" ;;
   affected_lines_json <- getitem a "informedEntity" ;;
   lines <- iter affected_lines_json ;;
   l1_line_impacted <- impacted_loop lines false ;;
   Ok {| alert_id := alert_id;
         url := url;
         title := title;
         description_html := description_html;
         formatted_start_date := formatted_start_date;
         formatted_end_date := formatted_end_date;
         l1_line_impacted := l1_line_impacted |})%result.

(** [None] of the source is [None] here. *)
Definition process_response_alert (entity : value) : option processed_alert :=
  match process_response_alert_body entity with
  | Ok processed_alert => Some processed_alert
  | Raise KeyError => None
  | Raise _ => None
  end.

End Canonicalizer.

(* ================================================================== *)
(** ** The world outside the program                                   *)
(* ================================================================== *)

(** A row of the table created by [create_new_table]: the columns are
    nullable, the three that are filled from values of the feed hold what
    [bq_string_param] makes of them. *)
Module Schema.
Record row : Type := mkRow {
  alert_id : option string;
  url : option string;
  title : option string;
  description_html : string;
  start_date : string;
  end_date : string;
  l1_line_impacted : bool;
  creation_date : string
}.
End Schema.

(** The calls that leave the process. *)
Inductive event : Type :=
| HttpGet
| GetTable
| CreateTable
| QueryCount (alert_id : option string)
| QueryInsert (r : Schema.row)
| SmtpSend (body : string).

(** What persists from one run to the next. *)
Record world : Type := mkWorld {
  table : option (list Schema.row);   (* [None]: the table does not exist *)
  outbox : list string;               (* the mails delivered, oldest first *)
  trace : list event                  (* the external calls, oldest first *)
}.

(** What the collaborators answer during one run.  An external call is
    numbered by the length of the trace when it is made. *)
Record env : Type := mkEnv {
  (** [requests.get], [raise_for_status] and [response.json()]. *)
  http_response : result value;
  (** Whether the BigQuery request made as call number [n] fails. *)
  bq_fault : nat -> bool;
  (** The exception of the SMTP session, if it raises one. *)
  smtp_error : option exn;
  (** [CURRENT_DATETIME('Australia/Sydney')] at call number [n]. *)
  current_datetime : nat -> string
}.

Definition M (A : Type) : Type := env -> world -> result A * world.

Definition ret {A} (a : A) : M A := fun _ w => (Ok a, w).

Definition raise {A} (e : exn) : M A := fun _ w => (Raise e, w).

Definition mbind {A B} (c : M A) (k : A -> M B) : M B :=
  fun e w =>
    match c e w with
    | (Ok a, w') => k a e w'
    | (Raise ex, w') => (Raise ex, w')
    end.

Definition lift {A} (r : result A) : M A := fun _ w => (r, w).

(** [try: c  except ...]: the handler answers [None] for an exception that
    no clause catches. *)
Definition try_catch {A} (c : M A) (handler : exn -> option (M A)) : M A :=
  fun e w =>
    match c e w with
    | (Ok a, w') => (Ok a, w')
    | (Raise ex, w') =>
        match handler ex with
        | Some h => h e w'
        | None => (Raise ex, w')
        end
    end.

Declare Scope io_scope.
Delimit Scope io_scope with io.
Notation "x <- c ;; k" := (mbind c (fun x => k))
  (at level 61, c at next level, right associativity) : io_scope.
Notation "c ;;; k" := (mbind c (fun _ => k))
  (at level 61, right associativity) : io_scope.

Definition log_event (ev : event) (w : world) : world :=
  {| table := table w; outbox := outbox w; trace := trace w ++ [ev] |}.

Definition set_table (rows : list Schema.row) (w : world) : world :=
  {| table := Some rows; outbox := outbox w; trace := trace w |}.

Definition deliver (body : string) (w : world) : world :=
  {| table := table w; outbox := outbox w ++ [body]; trace := trace w |}.

(** SQL [=] on nullable strings: never true of [NULL]. *)
Definition sql_eq (a b : option string) : bool :=
  match a, b with
  | Some x, Some y => String.eqb x y
  | _, _ => false
  end.

(** The BigQuery client and service, as far as the program uses them. *)
Module Client.

(** One API request: recorded in the trace, failing with
    [GoogleCloudError] when the environment says so, with [NotFound] when
    it needs the table and there is none. *)
Definition request {A} (ev : event) (needs_table : bool)
    (k : world -> result A * world) : M A :=
  fun e w =>
    let w1 := log_event ev w in
    if bq_fault e (List.length (trace w)) then (Raise GoogleCloudError, w1)
    else
      match table w, needs_table with
      | None, true => (Raise NotFound, w1)
      | _, _ => k w1
      end.

Definition rows_of (w : world) : list Schema.row :=
  match table w with
  | Some rows => rows
  | None => []
  end.

(** [client.get_table(FULL_TABLE_ID)]. *)
Definition get_table : M unit :=
  request GetTable true (fun w => (Ok tt, w)).

(** [client.create_table(table)]. *)
Definition create_table : M unit :=
  request CreateTable false
    (fun w =>
       match table w with
       | Some _ => (Raise Conflict, w)
       | None => (Ok tt, set_table [] w)
       end).

(** [SELECT COUNT( * ) ... WHERE alert_id = @alert_id], and the first column
    of the first row of its result. *)
Definition query_count (key : option string) : M Z :=
  request (QueryCount key) true
    (fun w =>
       (Ok (Z.of_nat
              (List.length
                 (filter (fun r => sql_eq (Schema.alert_id r) key) (rows_of w)))),
        w)).

(** [INSERT INTO ... VALUES (...)], [creation_date] being stamped by the
    service. *)
Definition query_insert (mk : string -> Schema.row) : M unit :=
  fun e w =>
    let r := mk (current_datetime e (List.length (trace w))) in
    request (QueryInsert r) true
      (fun w1 => (Ok tt, set_table (rows_of w1 ++ [r]) w1)) e w.

End Client.

(* ================================================================== *)
(** ** [bigquery_interface.py]                                         *)
(* ================================================================== *)

Module bigquery_interface.

(** The client object carries no state of its own. *)
Definition client : Type := unit.

Definition create_bq_client : M client := ret tt.

(** [try: get_table; return True
     except NotFound: return False
     except GoogleCloudError as e: raise e]. *)
Definition check_table_exists (c : client) : M bool :=
  try_catch
    (Client.get_table ;;; ret true)%io
    (fun ex =>
       match ex with
       | NotFound => Some (ret false)
       | _ => if is_GoogleCloudError ex then Some (raise ex) else None
       end).

(** [try: create_table  except GoogleCloudError as e: raise e]. *)
Definition create_new_table (c : client) : M unit :=
  try_catch
    Client.create_table
    (fun ex => if is_GoogleCloudError ex then Some (raise ex) else None).

Section WithRuntime.
Context {RT : Runtime}.

(** Returns whether the id EXISTS in the table (so the name of the function
    says the opposite of its result); nothing is caught. *)
Definition check_alert_id_is_unique (c : client) (processed_alert : processed_alert)
  : M bool :=
  (let alert_id := alert_id processed_alert in
   count <- Client.query_count (bq_string_param alert_id) ;;
   let id_exists := false in
   let id_exists := if count >? 0 then true else id_exists in
   ret id_exists)%io.

(** The row that the [INSERT] statement writes for [processed_alert]. *)
Definition row_of (processed_alert : processed_alert) (now : string) : Schema.row :=
  {| Schema.alert_id := bq_string_param (alert_id processed_alert);
     Schema.url := bq_string_param (url processed_alert);
     Schema.title := bq_string_param (title processed_alert);
     Schema.description_html := description_html processed_alert;
     Schema.start_date := formatted_start_date processed_alert;
     Schema.end_date := formatted_end_date processed_alert;
     Schema.l1_line_impacted := l1_line_impacted processed_alert;
     Schema.creation_date := now |}.

(** [try: query; result  except GoogleCloudError as e: raise e]. *)
Definition insert_values_into_table (c : client) (processed_alert : processed_alert)
  : M unit :=
  try_catch
    (Client.query_insert (row_of processed_alert))
    (fun ex => if is_GoogleCloudError ex then Some (raise ex) else None).

End WithRuntime.

End bigquery_interface.

(* ================================================================== *)
(** ** [lightrail_service_status_alert.py]                             *)
(* ================================================================== *)

(** [try: get; raise_for_status; return response.json()
     except requests.RequestException: return None].
    Python's [None] is [JNull], which is also what a feed answering the JSON
    document [null] yields. *)
Definition fetch_data : M value :=
  try_catch
    (fun e w => (http_response e, log_event HttpGet w))
    (fun ex =>
       match ex with
       | RequestException => Some (ret JNull)
       | _ => None
       end).

Section Batcher.
Context {RT : Runtime}.

(** The keys of the dict in insertion order, each with [str] of its value. *)
Definition items (a : processed_alert) : list (string * string) :=
  [ ("alert_id", py_str (alert_id a));
    ("url", py_str (url a));
    ("title", py_str (title a));
    ("description_html", description_html a);
    ("formatted_start_date", formatted_start_date a);
    ("formatted_end_date", formatted_end_date a);
    ("l1_line_impacted", str_of_bool (l1_line_impacted a)) ].

(** [email_body_str += f"{alert}: {processed_response_alert[alert]}\n"]
    for every key. *)
Definition format_email_body (processed_response_alert : processed_alert) : string :=
  fold_left
    (fun email_body_str kv =>
       email_body_str ++ fst kv ++ ": " ++ snd kv ++ String newline "")
    (items processed_response_alert) "".

End Batcher.

(** The text handed to the SMTP server. *)
Definition mail_text (formatted_email_body : list string) : string :=
  join ("===" ++ String newline "") formatted_email_body.

(** [try: with smtplib.SMTP(...): starttls; login; send_message; return True
     except smtplib.SMTPException: return None].
    A session that raises has delivered nothing here: the exception is one
    of [SMTP(...)], [starttls], [login] or [send_message]; a [QUIT] that
    fails when the [with] block is left, after the server has accepted the
    message, is not modelled. *)
Definition send_email (formatted_email_body : list string) : M (option bool) :=
  try_catch
    (fun e w =>
       let body := mail_text formatted_email_body in
       let w1 := log_event (SmtpSend body) w in
       match smtp_error e with
       | Some ex => (Raise ex, w1)
       | None => (Ok (Some true), deliver body w1)
       end)
    (fun ex =>
       match ex with
       | SMTPException => Some (ret None)
       | _ => None
       end).

Section Orchestrator.
Context {RT : Runtime}.

Definition run_result : Type := (string * Z)%type.

(** [l1_line_impacted == True and not check_alert_id_is_unique(...)]: the
    store is asked only about a relevant alert. *)
Definition is_new_alert (c : bigquery_interface.client) (a : processed_alert) : M bool :=
  if l1_line_impacted a
  then (known <- bigquery_interface.check_alert_id_is_unique c a ;;
        ret (negb known))%io
  else ret false.

(** The [for] loop of [main] over the entities that remain, with
    [alerts_to_email] as accumulated so far: [inl] is the [return] inside
    the loop, [inr] the list when the loop runs to its end. *)
Fixpoint main_loop (c : bigquery_interface.client) (entities : list value)
    (alerts_to_email : list processed_alert)
  : M (run_result + list processed_alert) :=
  match entities with
  | [] => ret (inr alerts_to_email)
  | entity :: rest =>
      match process_response_alert entity with
      | None =>
          ret (inl ("Error: Unable to process result " ++ py_str entity, 500))
      | Some processed_response_alert =>
          (new <- is_new_alert c processed_response_alert ;;
           if new
           then
             bigquery_interface.insert_values_into_table c processed_response_alert ;;;
             main_loop c rest (alerts_to_email ++ [processed_response_alert])
           else main_loop c rest alerts_to_email)%io
      end
  end.

(** The part of [main] after the loop. *)
Definition main_notify (alerts_to_email : list processed_alert) : M run_result :=
  if 0 <? Z.of_nat (List.length alerts_to_email)
  then
    (let email_body_content := map format_email_body alerts_to_email in
     send_email_result <- send_email email_body_content ;;
     match send_email_result with
     | None => ret ("Error: Unable to send email.", 500)
     | Some _ => ret ("Complete.", 200)
     end)%io
  else ret ("Complete.", 200).

(** The part of [main] between the fetch and the loop: the entities to
    loop over, with the client. *)
Definition main_setup (response_json : value)
  : M (bigquery_interface.client * list value) :=
  (entity <- lift (getitem response_json "entity") ;;
   number_of_results <- lift (len entity) ;;
   client <- bigquery_interface.create_bq_client ;;
   table_exists <- bigquery_interface.check_table_exists client ;;
   (if negb table_exists
    then bigquery_interface.create_new_table client
    else ret tt) ;;;
   entity <- lift (getitem response_json "entity") ;;
   entities <- lift (iter entity) ;;
   ret (client, entities))%io.

Definition main (gcp_arg : string) : M run_result :=
  (response_json <- fetch_data ;;
   if is_None response_json
   then ret ("Error: The API response is invalid", 500)
   else
     s <- main_setup response_json ;;
     r <- main_loop (fst s) (snd s) [] ;;
     match r with
     | inl result => ret result
     | inr alerts_to_email => main_notify alerts_to_email
     end)%io.

(** One scheduled invocation, and a sequence of them, each with the
    answers of its own environment. *)
Definition run (e : env) (w : world) : result run_result * world :=
  main "Running locally." e w.

Definition runs (es : list env) (w : world) : world :=
  fold_left (fun w e => snd (run e w)) es w.

End Orchestrator.

(* ================================================================== *)
(** ** [lightrail_timetable_alert.py]                                  *)
(* ================================================================== *)

Module lightrail_timetable_alert.

Definition TARGET_DEPARTURE_HOUR : Z := 7.
Definition TARGET_DEPARTURE_MINUTES : Z := 50.

(** [str(n)] of an integer, as an f-string renders it. *)
Definition str_of_int (n : Z) : string :=
  DecimalString.NilZero.string_of_int (Z.to_int n).

Definition EMAIL_BODY : string :=
  "No " ++ str_of_int TARGET_DEPARTURE_HOUR ++ ":"
  ++ str_of_int TARGET_DEPARTURE_MINUTES
  ++ " depature found: https://transportnsw.info/trip#/departures?accessible=false&depart=220322&routes=780l1&type=stop".

(** The same [try]/[except] as in the status script, on another URL. *)
Definition fetch_data : M value :=
  try_catch
    (fun e w => (http_response e, log_event HttpGet w))
    (fun ex =>
       match ex with
       | RequestException => Some (ret JNull)
       | _ => None
       end).

(** [%H] and [%M] of [strftime]: two digits. *)
Definition two_digits (n : Z) : string :=
  if n <? 10 then "0" ++ str_of_int n else str_of_int n.

(** Today's 07:50 in Sydney, as [HH:MM] in UTC.  [sydney_utc_offset] is the
    offset from UTC, in minutes, that [pytz] gives to that local time
    ([localize]); [astimezone(pytz.utc)] subtracts it, and the seconds that
    [datetime.now()] leaves in place do not show in the result. *)
Definition format_target_time (sydney_utc_offset : Z) : string :=
  let utc_minutes :=
    (TARGET_DEPARTURE_HOUR * 60 + TARGET_DEPARTURE_MINUTES - sydney_utc_offset)
      mod 1440 in
  two_digits (utc_minutes / 60) ++ ":" ++ two_digits (utc_minutes mod 60).

(** [try: with smtplib.SMTP(...): ...; send_message; return True
     except smtplib.SMTPException: return None], the body being the text. *)
Definition send_email (formatted_email_body : string) : M (option bool) :=
  try_catch
    (fun e w =>
       let w1 := log_event (SmtpSend formatted_email_body) w in
       match smtp_error e with
       | Some ex => (Raise ex, w1)
       | None => (Ok (Some true), deliver formatted_email_body w1)
       end)
    (fun ex =>
       match ex with
       | SMTPException => Some (ret None)
       | _ => None
       end).

(** [needle in haystack] for two strings. *)
Fixpoint is_substring (needle haystack : string) : bool :=
  String.prefix needle haystack
  || match haystack with
     | EmptyString => false
     | String _ rest => is_substring needle rest
     end.

(** [s in v] for a string [s]: a substring of a string, an element of a
    list, a key of a dict. *)
Definition contains_str (v : value) (s : string) : result bool :=
  match v with
  | JStr haystack => Ok (is_substring s haystack)
  | JArr items => Ok (existsb (fun x => eq_str x s) items)
  | JObj fields => Ok (existsb (fun kv => String.eqb (fst kv) s) fields)
  | _ => Raise TypeError
  end.

(** The [for] loop of [main] with its [break]: the value of
    [found_target_time] at the end.  The f-string of the log line reads
    [x['departureTimePlanned']] before the test does. *)
Fixpoint find_target (target_time : string) (stop_events : list value)
  : result bool :=
  match stop_events with
  | [] => Ok false
  | x :: rest =>
      (logged <- getitem x "departureTimePlanned" ;;
       planned <- getitem x "departureTimePlanned" ;;
       hit <- contains_str planned target_time ;;
       if hit then Ok true else find_target target_time rest)%result
  end.

Definition main (sydney_utc_offset : Z) (gcp_arg : string) : M run_result :=
  (response_json <- fetch_data ;;
   if is_None response_json
   then ret ("Error: The API response is invalid", 500)
   else
     let target_time := format_target_time sydney_utc_offset in
     stop_events <-
       lift (events <- getitem response_json "stopEvents" ;; iter events)%result ;;
     found_target_time <- lift (find_target target_time stop_events) ;;
     if negb found_target_time
     then
       send_email_result <- send_email EMAIL_BODY ;;
       match send_email_result with
       | None => ret ("Error: Unable to send email.", 500)
       | Some _ => ret ("Complete.", 200)
       end
     else ret ("Complete.", 200))%io.

End lightrail_timetable_alert.

(* ================================================================== *)
(** ** A runtime to run the model on examples                          *)
(* ================================================================== *)

(** A host whose local time zone is UTC, with simplified [repr]. *)
Module Host.

Definition string_of_Z (n : Z) : string :=
  DecimalString.NilZero.string_of_int (Z.to_int n).

Definition digit_of (c : ascii) : option Z :=
  let n := Z.of_N (N_of_ascii c) in
  if (48 <=? n) && (n <=? 57) then Some (n - 48) else None.

Fixpoint parse_digits (s : string) (acc : Z) : option Z :=
  match s with
  | EmptyString => Some acc
  | String c rest =>
      match digit_of c with
      | Some d => parse_digits rest (10 * acc + d)
      | None => None
      end
  end.

(** [int(v)] on integers, booleans, floats and strings of decimal digits. *)
Definition int (v : value) : result Z :=
  match v with
  | JInt n => Ok n
  | JBool b => Ok (if b then 1 else 0)
  | JStr EmptyString => Raise ValueError
  | JStr s =>
      match parse_digits s 0 with
      | Some n => Ok n
      | None => Raise ValueError
      end
  | JFloat (S754_zero _) => Ok 0
  | JFloat (S754_finite sign m e) =>
      let a := if 0 <=? e then Z.pos m * 2 ^ e else Z.pos m / 2 ^ (- e) in
      Ok (if sign then - a else a)
  | JFloat S754_nan => Raise ValueError
  | JFloat (S754_infinity _) => Raise OverflowError
  | _ => Raise TypeError
  end.

Definition pad (width : nat) (s : string) : string :=
  string_of_list_ascii (repeat "0"%char (width - String.length s)) ++ s.

(** The proleptic Gregorian date of a day number counted from 1970-01-01. *)
Definition civil_from_days (z : Z) : Z * Z * Z :=
  let z := z + 719468 in
  let era := z / 146097 in
  let doe := z - era * 146097 in
  let yoe := (doe - doe / 1460 + doe / 36524 - doe / 146096) / 365 in
  let doy := doe - (365 * yoe + yoe / 4 - yoe / 100) in
  let mp := (5 * doy + 2) / 153 in
  let d := doy - (153 * mp + 2) / 5 + 1 in
  let m := if mp <? 10 then mp + 3 else mp - 9 in
  let y := yoe + era * 400 + (if m <=? 2 then 1 else 0) in
  (y, m, d).

Definition strftime_utc (t : Z) : result string :=
  let '(y, m, d) := civil_from_days (t / 86400) in
  let s := t mod 86400 in
  if (1 <=? y) && (y <=? 9999)
  then Ok (pad 4 (string_of_Z y) ++ "-" ++ pad 2 (string_of_Z m) ++ "-"
           ++ pad 2 (string_of_Z d) ++ " " ++ pad 2 (string_of_Z (s / 3600))
           ++ ":" ++ pad 2 (string_of_Z (s / 60 mod 60)) ++ ":"
           ++ pad 2 (string_of_Z (s mod 60)))
  else Raise ValueError.

Definition format_epoch_utc (v : value) : result string :=
  (t <- int v ;; strftime_utc t)%result.

(** [repr] without escapes in strings and without the digits of floats. *)
Fixpoint repr (v : value) : string :=
  match v with
  | JNull => "None"
  | JBool b => str_of_bool b
  | JInt n => string_of_Z n
  | JFloat _ => "<float>"
  | JStr s => "'" ++ s ++ "'"
  | JArr items => "[" ++ join ", " (map repr items) ++ "]"
  | JObj fields =>
      "{" ++ join ", "
               (map (fun kv => match kv with
                               | (k, x) => "'" ++ k ++ "': " ++ repr x
                               end) fields) ++ "}"
  end.

Definition string_param (v : value) : option string :=
  match v with
  | JNull => None
  | JStr s => Some s
  | _ => Some (repr v)
  end.

#[export] Instance runtime : Runtime := {|
  format_epoch := format_epoch_utc;
  py_repr := repr;
  bq_string_param := string_param;
  bq_string_param_str := fun s => eq_refl
|}.

(** A feed entity as the upstream contract describes it. *)
Definition entity_of (id : string) (periods : list value) (informed : list value) : value :=
  JObj [ ("id", JStr id);
         ("alert",
          JObj [ ("activePeriod", JArr periods);
                 ("informedEntity", JArr informed);
                 ("url", JObj [("translation", JArr [JObj [("text", JStr "https://transportnsw.info/alerts")]])]);
                 ("headerText", JObj [("translation", JArr [JObj [("text", JStr "Trackwork")]])]);
                 ("descriptionText",
                  JObj [("translation",
                         JArr [JObj [("text", JStr ("Buses replace trams" ++ String newline "tonight"))]])]) ]) ].

Definition informed (route : string) (direction : Z) : value :=
  JObj [("routeId", JStr route); ("directionId", JInt direction)].

Definition period (start_ end_ : string) : value :=
  JObj [("start", JStr start_); ("end", JStr end_)].

Definition feed_of (entities : list value) : value :=
  JObj [("entity", JArr entities)].

Definition entity42 : value :=
  entity_of "42" [period "1700000000" "1700003600"] [informed "IWLR-191" 0].

Definition alert42 : processed_alert :=
  {| alert_id := JStr "42";
     url := JStr "https://transportnsw.info/alerts";
     title := JStr "Trackwork";
     description_html := "Buses replace tramstonight";
     formatted_start_date := "2023-11-14 22:13:20";
     formatted_end_date := "2023-11-14 23:13:20";
     l1_line_impacted := true |}.

Definition empty_world : world :=
  {| table := None; outbox := []; trace := [] |}.

(** An environment in which every collaborator answers. *)
Definition healthy (payload : value) : env :=
  {| http_response := Ok payload;
     bq_fault := fun _ => false;
     smtp_error := None;
     current_datetime := fun _ => "2023-11-15T09:14:00" |}.

(** An environment in which the BigQuery request made as call number
    [n] fails, everything else answering. *)
Definition store_failing_at (n : nat) (payload : value) : env :=
  {| http_response := Ok payload;
     bq_fault := fun m => Nat.eqb m n;
     smtp_error := None;
     current_datetime := fun _ => "2023-11-15T09:14:00" |}.

(** An environment in which the SMTP session fails. *)
Definition mail_failing (payload : value) : env :=
  {| http_response := Ok payload;
     bq_fault := fun _ => false;
     smtp_error := Some SMTPException;
     current_datetime := fun _ => "2023-11-15T09:14:00" |}.

Definition empty_table : world :=
  {| table := Some []; outbox := []; trace := [] |}.

(** An environment in which the feed cannot be fetched. *)
Definition feed_down : env :=
  {| http_response := Raise RequestException;
     bq_fault := fun _ => false;
     smtp_error := None;
     current_datetime := fun _ => "2023-11-15T09:14:00" |}.

Definition entity43 : value :=
  entity_of "43" [] [informed "IWLR-191" 1].

Definition feed42 : value := feed_of [entity42].

(** A feed whose second entity is not an alert at all. *)
Definition feed_with_bad : value := feed_of [entity42; JInt 5; entity43].

(** The world in which a run started in [w] reaches its loop when the
    table exists. *)
Definition at_loop (w : world) : world :=
  log_event GetTable (log_event HttpGet w).

(** A world whose table holds one row, of an alert with id 7. *)
Definition stored_world : world :=
  {| table :=
       Some [ {| Schema.alert_id := Some "7";
                 Schema.url := Some "https://transportnsw.info/alerts";
                 Schema.title := Some "Lift out of service";
                 Schema.description_html := "Central";
                 Schema.start_date := "NULL";
                 Schema.end_date := "NULL";
                 Schema.l1_line_impacted := true;
                 Schema.creation_date := "2023-11-01T08:00:00" |} ];
     outbox := [];
     trace := [] |}.

End Host.

(** More feeds and environments to run the model on. *)
Module Samples.
Import Host.

(** An alert with three active periods, the middle one without fields. *)
Definition entity44 : value :=
  entity_of "44"
    [period "1700000000" "1700003600"; JObj []; period "1700007200" "1700010800"]
    [informed "IWLR-191" 1].

Definition alert44 : processed_alert :=
  {| alert_id := JStr "44";
     url := JStr "https://transportnsw.info/alerts";
     title := JStr "Trackwork";
     description_html := "Buses replace tramstonight";
     formatted_start_date := "2023-11-14 22:13:20";
     formatted_end_date := "2023-11-15 01:13:20";
     l1_line_impacted := true |}.

(** The [alert] member of an entity. *)
Definition alert_of (entity : value) : value :=
  match getitem entity "alert" with
  | Ok alert => alert
  | Raise _ => JNull
  end.

(** An entity whose [id] is JSON [null], otherwise that of [entity42]. *)
Definition entity_null : value :=
  JObj [("id", JNull); ("alert", alert_of entity42)].

Definition alert_null : processed_alert :=
  {| alert_id := JNull;
     url := JStr "https://transportnsw.info/alerts";
     title := JStr "Trackwork";
     description_html := "Buses replace tramstonight";
     formatted_start_date := "2023-11-14 22:13:20";
     formatted_end_date := "2023-11-14 23:13:20";
     l1_line_impacted := true |}.

Definition feed_null : value := feed_of [entity_null].

(** An alert of another line. *)
Definition entity_l2 : value :=
  entity_of "45" [] [informed "L2" 0].

Definition alert_l2 : processed_alert :=
  {| alert_id := JStr "45";
     url := JStr "https://transportnsw.info/alerts";
     title := JStr "Trackwork";
     description_html := "Buses replace tramstonight";
     formatted_start_date := "NULL";
     formatted_end_date := "NULL";
     l1_line_impacted := false |}.

(** A feed of two alerts on the route with one of another line between
    them, and a feed of that other alert alone. *)
Definition feed_three : value := feed_of [entity42; entity_l2; entity44].

Definition feed_l2 : value := feed_of [entity_l2].

(** An environment in which the HTTP client raises [ex]. *)
Definition http_raising (ex : exn) : env :=
  {| http_response := Raise ex;
     bq_fault := fun _ => false;
     smtp_error := None;
     current_datetime := fun _ => "2023-11-15T09:14:00" |}.

(** An environment in which the SMTP session raises [ex]. *)
Definition smtp_raising (ex : exn) (payload : value) : env :=
  {| http_response := Ok payload;
     bq_fault := fun _ => false;
     smtp_error := Some ex;
     current_datetime := fun _ => "2023-11-15T09:14:00" |}.

(** Departures as the departure monitor lists them. *)
Definition stop_event (planned : string) : value :=
  JObj [("departureTimePlanned", JStr planned)].

Definition departures (stop_events : list value) : value :=
  JObj [("stopEvents", JArr stop_events)].

End Samples.

(* ================================================================== *)
(** ** The vocabulary of the properties                                *)
(* ================================================================== *)

Definition raises {A} (r : result A) : Prop :=
  match r with
  | Raise _ => True
  | Ok _ => False
  end.

(** An informed entity that carries a route and a direction identifier. *)
Definition carries_route_and_direction (line : value) : Prop :=
  exists r d, getitem line "routeId" = Ok r /\ getitem line "directionId" = Ok d.

(** An informed entity on the route of interest in direction 0 or 1
    (equality being that of Python's [==]). *)
Definition on_route_of_interest (line : value) : Prop :=
  exists r d,
    getitem line "routeId" = Ok r /\ getitem line "directionId" = Ok d /\
    eq_str r "IWLR-191" = true /\ (eq_int d 0 = true \/ eq_int d 1 = true).

Section CanonicalizerVocabulary.
Context {RT : Runtime}.

(** The description as the record needs it: the text, with a [replace]
    method. *)
Definition description_text (entity : value) : result string :=
  (d <- translation_text entity "descriptionText" ;; replace_newlines d)%result.

(** The relevance flag of an entity: its informed entities, iterated. *)
Definition informed_flag (entity : value) : result bool :=
  (a <- getitem entity "alert" ;;
   affected_lines_json <- getitem a "informedEntity" ;;
   lines <- iter affected_lines_json ;;
   impacted_loop lines false)%result.

(** One of [id], [url], [title], [description] is structurally absent. *)
Definition required_field_absent (entity : value) : Prop :=
  raises (getitem entity "id") \/
  raises (translation_text entity "url") \/
  raises (translation_text entity "headerText") \/
  raises (translation_text entity "descriptionText").

(** What makes [process_response_alert] give up. *)
Definition cannot_canonicalize (entity : value) : Prop :=
  raises (getitem entity "id") \/
  raises (translation_text entity "url") \/
  raises (translation_text entity "headerText") \/
  raises (description_text entity) \/
  raises (informed_flag entity).

End CanonicalizerVocabulary.

(** The rows of the store carry pairwise distinct ids, distinct in the
    sense of the store's own [=]. *)
Definition pairwise_distinct_ids (rows : list Schema.row) : Prop :=
  ForallOrdPairs
    (fun r1 r2 => sql_eq (Schema.alert_id r1) (Schema.alert_id r2) = false)
    rows.

(** The answer of the existence query, as a function of the rows. *)
Definition known (key : option string) (rows : list Schema.row) : bool :=
  existsb (fun r => sql_eq (Schema.alert_id r) key) rows.

(** [rows] is a prefix of [rows']: rows are only ever appended. *)
Definition extends (rows rows' : list Schema.row) : Prop :=
  exists added, rows' = (rows ++ added)%list.

(** The entities [main] loops over, for a payload. *)
Definition feed_entities (payload : value) : list value :=
  match (entity <- getitem payload "entity" ;; iter entity)%result with
  | Ok entities => entities
  | Raise _ => []
  end.

(** The ids of the feed are strings, as its contract has it. *)
Definition ids_are_strings (entities : list value) : Prop :=
  Forall
    (fun entity => forall v, getitem entity "id" = Ok v -> exists s, v = JStr s)
    entities.

(** The same, of the feed that a run receives, if it receives one. *)
Definition feed_ids_are_strings (e : env) : Prop :=
  match http_response e with
  | Ok payload => ids_are_strings (feed_entities payload)
  | Raise _ => True
  end.

(** The column [alert_id] of the table. *)
Definition id_column (rows : list Schema.row) : list (option string) :=
  map Schema.alert_id rows.

(** BigQuery answers every request of the run. *)
Definition no_bq_fault (e : env) : Prop :=
  forall n, bq_fault e n = false.

(** External calls that change nothing outside. *)
Definition read_only (ev : event) : bool :=
  match ev with
  | HttpGet | GetTable | QueryCount _ => true
  | CreateTable | QueryInsert _ | SmtpSend _ => false
  end.

(** Calls to the store, and calls to the mail transport. *)
Definition store_call (ev : event) : bool :=
  match ev with
  | GetTable | CreateTable | QueryCount _ | QueryInsert _ => true
  | HttpGet | SmtpSend _ => false
  end.

Definition mail_call (ev : event) : bool :=
  match ev with
  | SmtpSend _ => true
  | _ => false
  end.

(** [l] is [l'] with some elements left out, the order kept. *)
Inductive subseq {A : Type} : list A -> list A -> Prop :=
| subseq_nil : subseq [] []
| subseq_skip x l l' : subseq l l' -> subseq l (x :: l')
| subseq_take x l l' : subseq l l' -> subseq (x :: l) (x :: l').

Section PipelineVocabulary.
Context {RT : Runtime}.

(** The key under which the store files an alert. *)
Definition key_of (a : processed_alert) : option string :=
  bq_string_param (alert_id a).

(** The alerts of the entities that canonicalize, in feed order. *)
Definition canonical (entities : list value) : list processed_alert :=
  flat_map
    (fun entity =>
       match process_response_alert entity with
       | Some a => [a]
       | None => []
       end)
    entities.

(** The notification as the specification words it: a line
    [<field>: <value>] for each field of an alert, the alerts in the order
    given, a line [===] between two of them.  The seven fields are written
    out here, one line each; nothing of this text is taken from [items] or
    from [format_email_body]. *)
Definition field_line (kv : string * string) : string :=
  fst kv ++ ": " ++ snd kv ++ String newline "".

Definition alert_block (a : processed_alert) : string :=
  "alert_id: " ++ py_str (alert_id a) ++ String newline
  ("url: " ++ py_str (url a) ++ String newline
  ("title: " ++ py_str (title a) ++ String newline
  ("description_html: " ++ description_html a ++ String newline
  ("formatted_start_date: " ++ formatted_start_date a ++ String newline
  ("formatted_end_date: " ++ formatted_end_date a ++ String newline
  ("l1_line_impacted: " ++ str_of_bool (l1_line_impacted a) ++ String newline
  "")))))).

Fixpoint render (alerts : list processed_alert) : string :=
  match alerts with
  | [] => ""
  | [a] => alert_block a
  | a :: rest => alert_block a ++ "===" ++ String newline "" ++ render rest
  end.

(** The run started in [w] gets to its loop: the feed answers with a
    payload, the table is there or has been created; [entities] are the
    entities to loop over and [w0] the world at that point. *)
Definition reaches_loop (e : env) (w : world) (entities : list value)
    (w0 : world) : Prop :=
  exists payload,
    fetch_data e w = (Ok payload, log_event HttpGet w) /\
    is_None payload = false /\
    main_setup payload e (log_event HttpGet w) = (Ok (tt, entities), w0).

(** The calls of the mail transport in a trace. *)
Definition mail_calls (tr : list event) : list event :=
  filter mail_call tr.

(** The alerts that the run started in [w] has in [alerts_to_email] when
    its loop has run to its end; none when the run does not get that far. *)
Definition batch_of_run (e : env) (w : world) : list processed_alert :=
  match fetch_data e w with
  | (Ok response_json, w1) =>
      if is_None response_json then []
      else
        match main_setup response_json e w1 with
        | (Ok s, w0) =>
            match main_loop (fst s) (snd s) [] e w0 with
            | (Ok (inr alerts_to_email), _) => alerts_to_email
            | _ => []
            end
        | (Raise _, _) => []
        end
  | (Raise _, _) => []
  end.

(** What the mail transport is asked to send for a batch: nothing for the
    empty one, else one text. *)
Definition mail_of_batch (alerts : list processed_alert) : list string :=
  match alerts with
  | [] => []
  | _ => [render alerts]
  end.

(** The two results a run that reaches the end of its loop can have. *)
Definition loop_completed (r : result run_result) : Prop :=
  r = Ok ("Complete.", 200) \/ r = Ok ("Error: Unable to send email.", 500).

End PipelineVocabulary.

(** Two outcomes that agree: the same value, or an exception each. *)
Definition same_outcome {A} (r1 r2 : result A) : Prop :=
  match r1, r2 with
  | Ok a, Ok b => a = b
  | Raise _, Raise _ => True
  | _, _ => False
  end.

(** The characters of a string, and a string free of line feeds. *)
Definition no_newline (s : string) : Prop :=
  ~ In newline (list_ascii_of_string s).

(** Every row of the table is that of a relevant alert. *)
Definition only_relevant_rows (rows : list Schema.row) : Prop :=
  Forall (fun r => Schema.l1_line_impacted r = true) rows.

(** The external calls a computation added to the trace. *)
Definition calls_between (w w' : world) (calls : list event) : Prop :=
  trace w' = (trace w ++ calls)%list.

(** A stop event whose planned departure is a string in which [target]
    occurs somewhere, and one whose planned departure is a string in which
    it occurs nowhere. *)
Definition departs_at (target : string) (x : value) : Prop :=
  exists before after,
    getitem x "departureTimePlanned" = Ok (JStr (before ++ target ++ after)).

Definition departs_at_another_time (target : string) (x : value) : Prop :=
  exists planned,
    getitem x "departureTimePlanned" = Ok (JStr planned) /\
    forall before after, planned <> before ++ target ++ after.

(* ================================================================== *)
(** ** The relevance filter and the canonicalizer                      *)
(* ================================================================== *)

Lemma line_matches_spec (line r dir : value) (d : Z) :
  getitem line "routeId" = Ok r ->
  getitem line "directionId" = Ok dir ->
  line_matches line d = Ok (eq_str r "IWLR-191" && eq_int dir d).
Proof.
  intros Hr Hd. unfold line_matches. rewrite Hr. simpl.
  destruct (eq_str r "IWLR-191"); simpl; [rewrite Hd|]; reflexivity.
Qed.

(** Once the flag is set, no later line clears it. *)
Lemma impacted_loop_true (lines : list value) (b : bool) :
  impacted_loop lines true = Ok b -> b = true.
Proof.
  revert b. induction lines as [|line rest IH]; intros b; simpl.
  - congruence.
  - destruct (line_matches line 1) as [[|]|]; simpl; auto; try discriminate.
    destruct (line_matches line 0) as [[|]|]; simpl; auto; discriminate.
Qed.

Lemma impacted_loop_typed (lines : list value) (l1 : bool) :
  Forall carries_route_and_direction lines ->
  exists b, impacted_loop lines l1 = Ok b /\
            (b = true <-> l1 = true \/ Exists on_route_of_interest lines).
Proof.
  revert l1. induction lines as [|line rest IH]; intros l1 Hall.
  - exists l1. split; [reflexivity|]. split; [auto|].
    intros [?|Hex]; [assumption | inversion Hex].
  - inversion Hall as [|? ? (r & d & Hr & Hd) Hrest]; subst.
    simpl. rewrite (line_matches_spec line r d 1 Hr Hd),
                   (line_matches_spec line r d 0 Hr Hd). simpl.
    assert (Hhere : eq_str r "IWLR-191" = true ->
                    eq_int d 0 = true \/ eq_int d 1 = true ->
                    on_route_of_interest line)
      by (intros; exists r, d; auto).
    assert (Hnot : on_route_of_interest line ->
                   eq_str r "IWLR-191" && eq_int d 1 = false ->
                   eq_str r "IWLR-191" && eq_int d 0 = false -> False).
    { intros (r' & d' & Hr' & Hd' & Hroute & Hdir) H1 H0.
      rewrite Hr in Hr'. rewrite Hd in Hd'.
      injection Hr' as <-. injection Hd' as <-.
      rewrite Hroute in H1, H0. simpl in H1, H0.
      destruct Hdir; congruence. }
    destruct (eq_str r "IWLR-191" && eq_int d 1) eqn:E1; simpl.
    + apply andb_true_iff in E1 as [Er Ed].
      destruct (IH true Hrest) as (b & Hb & Hiff). exists b. split; [exact Hb|].
      split; [intros _; right; left; auto|].
      intros _. apply Hiff. auto.
    + destruct (eq_str r "IWLR-191" && eq_int d 0) eqn:E0; simpl.
      * apply andb_true_iff in E0 as [Er Ed].
        destruct (IH true Hrest) as (b & Hb & Hiff). exists b. split; [exact Hb|].
        split; [intros _; right; left; auto|].
        intros _. apply Hiff. auto.
      * destruct (IH l1 Hrest) as (b & Hb & Hiff). exists b. split; [exact Hb|].
        rewrite Hiff. split.
        -- intros [?|?]; [left | right; right]; assumption.
        -- intros [?|Hex]; [left; assumption|].
           inversion Hex; subst; [exfalso; eauto | right; assumption].
Qed.

(** C3. Relevance filter: for every finite sequence of informed entities
    that each carry a route and a direction identifier, the loop of
    [process_response_alert] ends without an error and its flag
    [l1_line_impacted] is true if and only if at least one entry has
    [routeId == "IWLR-191"] and [directionId == 0] or [directionId == 1];
    in particular the empty sequence gives false. *)
Theorem relevance_filter_correct (lines : list value) :
  Forall carries_route_and_direction lines ->
  exists l1_line_impacted,
    impacted_loop lines false = Ok l1_line_impacted /\
    (l1_line_impacted = true <-> Exists on_route_of_interest lines).
Proof.
  intros Hall. destruct (impacted_loop_typed lines false Hall) as (b & Hb & Hiff).
  exists b. split; [exact Hb|]. rewrite Hiff. split.
  - intros [?|?]; [discriminate | assumption].
  - auto.
Qed.

Section CanonicalizerFacts.
Context {RT : Runtime}.

(** The outcome of the body, stage by stage. *)
Lemma process_response_alert_body_stages (entity : value) :
  process_response_alert_body entity =
  (alert_id <- getitem entity "id" ;;
   url <- translation_text entity "url" ;;
   title <- translation_text entity "headerText" ;;
   description_html <- description_text entity ;;
   l1_line_impacted <- informed_flag entity ;;
   Ok {| alert_id := alert_id;
         url := url;
         title := title;
         description_html := description_html;
         formatted_start_date :=
           try_except (period_date entity 0 "start") (fun _ => "NULL");
         formatted_end_date :=
           try_except (period_date entity (-1) "end") (fun _ => "NULL");
         l1_line_impacted := l1_line_impacted |})%result.
Proof.
  unfold process_response_alert_body, description_text, informed_flag.
  destruct (getitem entity "id"); simpl; [|reflexivity].
  destruct (translation_text entity "url"); simpl; [|reflexivity].
  destruct (translation_text entity "headerText"); simpl; [|reflexivity].
  destruct (translation_text entity "descriptionText"); simpl; [|reflexivity].
  destruct (replace_newlines _); simpl; [|reflexivity].
  destruct (getitem entity "alert") as [al|]; simpl; [|reflexivity].
  destruct (getitem al "informedEntity") as [l|]; simpl; [|reflexivity].
  destruct (iter l); simpl; reflexivity.
Qed.

Lemma process_response_alert_none (entity : value) :
  process_response_alert entity = None <-> raises (process_response_alert_body entity).
Proof.
  unfold process_response_alert.
  destruct (process_response_alert_body entity) as [pa|[]]; simpl;
    split; intros; try discriminate; try contradiction; auto.
Qed.

Lemma process_response_alert_some (entity : value) (pa : processed_alert) :
  process_response_alert entity = Some pa <-> process_response_alert_body entity = Ok pa.
Proof.
  unfold process_response_alert.
  destruct (process_response_alert_body entity) as [pa'|[]];
    split; intros Heq; try discriminate; congruence.
Qed.

Lemma process_response_alert_id (entity : value) (a : processed_alert) :
  process_response_alert entity = Some a ->
  getitem entity "id" = Ok (alert_id a).
Proof.
  intros Hpa. apply process_response_alert_some in Hpa.
  rewrite process_response_alert_body_stages in Hpa.
  destruct (getitem entity "id"); simpl in Hpa; [|discriminate].
  destruct (translation_text entity "url"); simpl in Hpa; [|discriminate].
  destruct (translation_text entity "headerText"); simpl in Hpa; [|discriminate].
  destruct (description_text entity); simpl in Hpa; [|discriminate].
  destruct (informed_flag entity); simpl in Hpa; [|discriminate].
  injection Hpa as <-. reflexivity.
Qed.

(** C4 (as amended). [process_response_alert] fails exactly when one of
    [id], [url], [title], the description text or the relevance flag cannot
    be extracted: a key or the first translation is missing, the description
    is not a string, [informedEntity] is missing or not iterable, or an
    informed entity lacks [routeId] (or, on the route of interest,
    [directionId]).  The timestamps never fail the record: each of the two
    dates is computed on its own and is ["NULL"] when its own extraction or
    parse fails, as both are when [activePeriod] is empty. *)
Theorem canonicalize_failure_condition (entity : value) :
  (process_response_alert entity = None <-> cannot_canonicalize entity) /\
  (forall pa, process_response_alert entity = Some pa ->
     formatted_start_date pa =
       try_except (period_date entity 0 "start") (fun _ => "NULL") /\
     formatted_end_date pa =
       try_except (period_date entity (-1) "end") (fun _ => "NULL")) /\
  (forall a pa,
     process_response_alert entity = Some pa ->
     getitem entity "alert" = Ok a ->
     getitem a "activePeriod" = Ok (JArr []) ->
     formatted_start_date pa = "NULL" /\ formatted_end_date pa = "NULL").
Proof.
  assert (Hdates : forall pa, process_response_alert entity = Some pa ->
     formatted_start_date pa =
       try_except (period_date entity 0 "start") (fun _ => "NULL") /\
     formatted_end_date pa =
       try_except (period_date entity (-1) "end") (fun _ => "NULL")).
  { intros pa Hpa. apply process_response_alert_some in Hpa.
    rewrite process_response_alert_body_stages in Hpa.
    destruct (getitem entity "id"); simpl in Hpa; [|discriminate].
    destruct (translation_text entity "url"); simpl in Hpa; [|discriminate].
    destruct (translation_text entity "headerText"); simpl in Hpa; [|discriminate].
    destruct (description_text entity); simpl in Hpa; [|discriminate].
    destruct (informed_flag entity); simpl in Hpa; [|discriminate].
    injection Hpa as <-. split; reflexivity. }
  split; [|split].
  - rewrite process_response_alert_none, process_response_alert_body_stages.
    unfold cannot_canonicalize.
    destruct (getitem entity "id"); simpl; [|tauto].
    destruct (translation_text entity "url"); simpl; [|tauto].
    destruct (translation_text entity "headerText"); simpl; [|tauto].
    destruct (description_text entity); simpl; [|tauto].
    destruct (informed_flag entity); simpl; tauto.
  - exact Hdates.
  - intros a pa Hpa Ha Hap. destruct (Hdates pa Hpa) as [-> ->].
    unfold period_date. rewrite Ha. simpl. rewrite Hap. simpl. split; reflexivity.
Qed.

End CanonicalizerFacts.

(** C4 (as stated) fails: an entity with [id], [url], [title] and
    [description] in place, but without [informedEntity], is rejected. *)
Lemma canonicalize_rejects_missing_informed_entity :
  let entity :=
    JObj [ ("id", JStr "42");
           ("alert",
            JObj [ ("url", JObj [("translation", JArr [JObj [("text", JStr "u")]])]);
                   ("headerText", JObj [("translation", JArr [JObj [("text", JStr "t")]])]);
                   ("descriptionText", JObj [("translation", JArr [JObj [("text", JStr "d")]])]);
                   ("activePeriod", JArr [Host.period "1700000000" "1700003600"]) ]) ] in
  process_response_alert (RT := Host.runtime) entity = None /\
  ~ required_field_absent entity.
Proof.
  split; [reflexivity|].
  unfold required_field_absent. simpl. tauto.
Qed.

(* ================================================================== *)
(** ** The store operations and the loop of [main], step by step       *)
(* ================================================================== *)

Lemma count_positive_known (key : option string) (rows : list Schema.row) :
  (Z.of_nat
     (List.length (filter (fun r => sql_eq (Schema.alert_id r) key) rows)) >? 0)
  = known key rows.
Proof.
  induction rows as [|r rows IH]; simpl; [reflexivity|].
  destruct (sql_eq (Schema.alert_id r) key); simpl; [|exact IH].
  rewrite Zpos_P_of_succ_nat. apply Z.gtb_gt. lia.
Qed.

Lemma known_app (key : option string) (rows rows' : list Schema.row) :
  known key (rows ++ rows') = known key rows || known key rows'.
Proof. apply existsb_app. Qed.

Lemma known_false_forall (key : option string) (rows : list Schema.row) :
  known key rows = false ->
  Forall (fun r => sql_eq (Schema.alert_id r) key = false) rows.
Proof.
  induction rows as [|r rows IH]; simpl; intros Hk; constructor;
    apply orb_false_iff in Hk as [? ?]; auto.
Qed.

Lemma pairwise_distinct_snoc (rows : list Schema.row) (r : Schema.row) :
  pairwise_distinct_ids rows ->
  known (Schema.alert_id r) rows = false ->
  pairwise_distinct_ids (rows ++ [r]).
Proof.
  unfold pairwise_distinct_ids.
  induction rows as [|r0 rows IH]; simpl; intros Hd Hk.
  - repeat constructor.
  - inversion Hd as [|? ? Hall Hrest]; subst.
    apply orb_false_iff in Hk as [Hk0 Hk].
    constructor; [|auto].
    apply Forall_app. split; [assumption|]. repeat constructor. exact Hk0.
Qed.

Section StoreSteps.
Context {RT : Runtime}.

Lemma check_alert_id_is_unique_eq c (a : processed_alert) (e : env) (w : world) :
  bigquery_interface.check_alert_id_is_unique c a e w =
  let w1 := log_event (QueryCount (key_of a)) w in
  if bq_fault e (List.length (trace w)) then (Raise GoogleCloudError, w1)
  else
    match table w with
    | None => (Raise NotFound, w1)
    | Some rows => (Ok (known (key_of a) rows), w1)
    end.
Proof.
  unfold bigquery_interface.check_alert_id_is_unique, Client.query_count,
    Client.request, mbind, ret, key_of. simpl.
  destruct (bq_fault e _); [reflexivity|].
  unfold Client.rows_of. simpl.
  destruct (table w) as [rows|]; [|reflexivity].
  rewrite count_positive_known. destruct (known _ rows); reflexivity.
Qed.

Lemma is_new_alert_eq c (a : processed_alert) (e : env) (w : world) :
  is_new_alert c a e w =
  if l1_line_impacted a
  then
    let w1 := log_event (QueryCount (key_of a)) w in
    if bq_fault e (List.length (trace w)) then (Raise GoogleCloudError, w1)
    else
      match table w with
      | None => (Raise NotFound, w1)
      | Some rows => (Ok (negb (known (key_of a) rows)), w1)
      end
  else (Ok false, w).
Proof.
  unfold is_new_alert. destruct (l1_line_impacted a); [|reflexivity].
  unfold mbind. rewrite check_alert_id_is_unique_eq. simpl.
  destruct (bq_fault e _); [reflexivity|].
  destruct (table w); reflexivity.
Qed.

Lemma insert_values_into_table_eq c (a : processed_alert) (e : env) (w : world) :
  bigquery_interface.insert_values_into_table c a e w =
  let r := bigquery_interface.row_of a (current_datetime e (List.length (trace w))) in
  let w1 := log_event (QueryInsert r) w in
  if bq_fault e (List.length (trace w)) then (Raise GoogleCloudError, w1)
  else
    match table w with
    | None => (Raise NotFound, w1)
    | Some rows => (Ok tt, set_table (rows ++ [r]) w1)
    end.
Proof.
  unfold bigquery_interface.insert_values_into_table, try_catch,
    Client.query_insert, Client.request. simpl.
  destruct (bq_fault e _); [reflexivity|].
  unfold Client.rows_of. simpl.
  destruct (table w); reflexivity.
Qed.

Lemma check_table_exists_eq c (e : env) (w : world) :
  bigquery_interface.check_table_exists c e w =
  let w1 := log_event GetTable w in
  if bq_fault e (List.length (trace w)) then (Raise GoogleCloudError, w1)
  else
    match table w with
    | None => (Ok false, w1)
    | Some _ => (Ok true, w1)
    end.
Proof.
  unfold bigquery_interface.check_table_exists, try_catch, mbind,
    Client.get_table, Client.request, ret. simpl.
  destruct (bq_fault e _); [reflexivity|].
  destruct (table w); reflexivity.
Qed.

Lemma create_new_table_eq c (e : env) (w : world) :
  bigquery_interface.create_new_table c e w =
  let w1 := log_event CreateTable w in
  if bq_fault e (List.length (trace w)) then (Raise GoogleCloudError, w1)
  else
    match table w with
    | None => (Ok tt, set_table [] w1)
    | Some _ => (Raise Conflict, w1)
    end.
Proof.
  unfold bigquery_interface.create_new_table, try_catch,
    Client.create_table, Client.request. simpl.
  destruct (bq_fault e _); [reflexivity|].
  destruct (table w); reflexivity.
Qed.

End StoreSteps.

Section LoopSteps.
Context {RT : Runtime}.

(** One turn of the loop of [main], with the answers of the store spelt
    out. *)
Lemma main_loop_cons c (entity : value) (rest : list value)
    (acc : list processed_alert) (e : env) (w : world) :
  main_loop c (entity :: rest) acc e w =
  match process_response_alert entity with
  | None => (Ok (inl ("Error: Unable to process result " ++ py_str entity, 500)), w)
  | Some a =>
      if l1_line_impacted a
      then
        let w1 := log_event (QueryCount (key_of a)) w in
        if bq_fault e (List.length (trace w)) then (Raise GoogleCloudError, w1)
        else
          match table w with
          | None => (Raise NotFound, w1)
          | Some rows =>
              if known (key_of a) rows then main_loop c rest acc e w1
              else
                let r := bigquery_interface.row_of a
                           (current_datetime e (List.length (trace w1))) in
                let w2 := log_event (QueryInsert r) w1 in
                if bq_fault e (List.length (trace w1))
                then (Raise GoogleCloudError, w2)
                else main_loop c rest (acc ++ [a]) e (set_table (rows ++ [r]) w2)
          end
      else main_loop c rest acc e w
  end.
Proof.
  simpl. destruct (process_response_alert entity) as [a|]; [|reflexivity].
  unfold mbind at 1. rewrite is_new_alert_eq.
  destruct (l1_line_impacted a); [|reflexivity].
  cbv zeta. destruct (bq_fault e (List.length (trace w))); [reflexivity|].
  destruct (table w) as [rows|] eqn:Et; [|reflexivity].
  destruct (known (key_of a) rows); cbn [negb]; cbv beta iota; [reflexivity|].
  unfold mbind. rewrite insert_values_into_table_eq. cbv zeta.
  destruct (bq_fault e _); [reflexivity|].
  simpl table. rewrite Et. reflexivity.
Qed.

(** The loop over a feed cut in two: the second part starts where the
    first one ends, unless the first one returns or raises. *)
Lemma main_loop_app c (pre post : list value) :
  forall (acc : list processed_alert) (e : env) (w : world),
  main_loop c (pre ++ post) acc e w =
  match main_loop c pre acc e w with
  | (Ok (inr acc'), w1) => main_loop c post acc' e w1
  | other => other
  end.
Proof.
  induction pre as [|entity pre IH]; intros acc e w.
  - reflexivity.
  - rewrite <- app_comm_cons, !main_loop_cons.
    destruct (process_response_alert entity) as [a|]; [|reflexivity].
    destruct (l1_line_impacted a); [|apply IH].
    cbv zeta. destruct (bq_fault e (List.length (trace w))); [reflexivity|].
    destruct (table w) as [rows|]; [|reflexivity].
    destruct (known (key_of a) rows); [apply IH|].
    destruct (bq_fault e _); [reflexivity | apply IH].
Qed.

End LoopSteps.

Lemma extends_refl (rows : list Schema.row) : extends rows rows.
Proof. exists []. symmetry. apply app_nil_r. Qed.

Lemma extends_trans (r1 r2 r3 : list Schema.row) :
  extends r1 r2 -> extends r2 r3 -> extends r1 r3.
Proof.
  intros [a1 ->] [a2 ->]. exists (a1 ++ a2)%list. symmetry. apply app_assoc.
Qed.

Lemma known_extends (key : option string) (rows rows' : list Schema.row) :
  extends rows rows' -> known key rows = true -> known key rows' = true.
Proof. intros [added ->] Hk. rewrite known_app, Hk. reflexivity. Qed.

Lemma known_extends_false (key : option string) (rows rows' : list Schema.row) :
  extends rows rows' -> known key rows' = false -> known key rows = false.
Proof.
  intros [added ->] Hk. rewrite known_app in Hk.
  apply orb_false_iff in Hk. tauto.
Qed.

Lemma In_extends (r : Schema.row) (rows rows' : list Schema.row) :
  extends rows rows' -> In r rows -> In r rows'.
Proof. intros [added ->] Hin. apply in_or_app. auto. Qed.

Lemma sql_eq_refl (s : string) : sql_eq (Some s) (Some s) = true.
Proof. simpl. apply String.eqb_refl. Qed.

(** Case analysis on one turn of the loop, in hypothesis [H]. *)
Ltac loop_turn H a rows :=
  rewrite main_loop_cons in H;
  destruct (process_response_alert _) as [a|] eqn:?;
  [ destruct (l1_line_impacted a) eqn:?;
    [ cbv zeta in H;
      destruct (bq_fault _ _) eqn:? in H;
      [ | destruct (table _) as [rows|] eqn:? in H;
          [ destruct (known (key_of a) rows) eqn:? in H;
            [ | destruct (bq_fault _ _) eqn:? in H ]
          | ] ]
    | ]
  | ].

Section LoopInvariants.
Context {RT : Runtime}.

(** What the loop leaves alone and what it can only add to. *)
Lemma main_loop_frame c (entities : list value) :
  forall (acc : list processed_alert) (e : env) (w : world) r (w' : world),
  main_loop c entities acc e w = (r, w') ->
  outbox w' = outbox w /\
  extends (Client.rows_of w) (Client.rows_of w') /\
  (table w <> None -> table w' <> None) /\
  (exists tr, trace w' = (trace w ++ tr)%list /\ forallb store_call tr = true) /\
  (pairwise_distinct_ids (Client.rows_of w) ->
   pairwise_distinct_ids (Client.rows_of w')).
Proof.
  assert (Hstop : forall (w : world),
    outbox w = outbox w /\ extends (Client.rows_of w) (Client.rows_of w) /\
    (table w <> None -> table w <> None) /\
    (exists tr, trace w = (trace w ++ tr)%list /\ forallb store_call tr = true) /\
    (pairwise_distinct_ids (Client.rows_of w) ->
     pairwise_distinct_ids (Client.rows_of w))).
  { intros w. repeat split; auto using extends_refl.
    exists []. split; [symmetry; apply app_nil_r | reflexivity]. }
  assert (Hlog : forall ev (w : world),
    store_call ev = true ->
    outbox (log_event ev w) = outbox w /\
    extends (Client.rows_of w) (Client.rows_of (log_event ev w)) /\
    (table w <> None -> table (log_event ev w) <> None) /\
    (exists tr, trace (log_event ev w) = (trace w ++ tr)%list /\
                forallb store_call tr = true) /\
    (pairwise_distinct_ids (Client.rows_of w) ->
     pairwise_distinct_ids (Client.rows_of (log_event ev w)))).
  { intros ev w Hev. repeat split; auto using extends_refl.
    exists [ev]. split; [reflexivity | simpl; rewrite Hev; reflexivity]. }
  induction entities as [|entity rest IH]; intros acc e w r w' Hrun.
  - injection Hrun as <- <-. apply Hstop.
  - loop_turn Hrun a rows.
    + injection Hrun as <- <-. apply Hlog. reflexivity.
    + apply IH in Hrun as (Ho & Hx & Ht & (tr & Htr & Hsc) & Hd).
      repeat split; auto.
      exists (QueryCount (key_of a) :: tr). split; [|exact Hsc].
      rewrite Htr. simpl. rewrite <- app_assoc. reflexivity.
    + injection Hrun as <- <-. repeat split; auto using extends_refl.
      exists [QueryCount (key_of a); QueryInsert
                (bigquery_interface.row_of a
                   (current_datetime e
                      (List.length (trace (log_event (QueryCount (key_of a)) w)))))].
      split; [|reflexivity]. simpl. rewrite <- app_assoc. reflexivity.
    + apply IH in Hrun as (Ho & Hx & Ht & (tr & Htr & Hsc) & Hd).
      unfold Client.rows_of in *. simpl in *.
      match type of Hx with
      | extends (rows ++ [?r0])%list _ => set (row := r0) in *
      end.
      match goal with Ht : table w = Some rows |- _ => rewrite Ht end.
      repeat split.
      * exact Ho.
      * eapply extends_trans; [|exact Hx]. exists [row]. reflexivity.
      * intros _. apply Ht. discriminate.
      * exists (QueryCount (key_of a) :: QueryInsert row :: tr). split; [|exact Hsc].
        rewrite Htr, <- !app_assoc. reflexivity.
      * intros Hpd. apply Hd. apply pairwise_distinct_snoc; assumption.
    + injection Hrun as <- <-. apply Hlog. reflexivity.
    + apply IH in Hrun. exact Hrun.
    + injection Hrun as <- <-. apply Hstop.
Qed.

End LoopInvariants.

Section CompletedLoop.
Context {RT : Runtime}.

Lemma canonical_cons (entity : value) (rest : list value) :
  canonical (entity :: rest) =
  match process_response_alert entity with
  | Some a => a :: canonical rest
  | None => canonical rest
  end.
Proof.
  unfold canonical. simpl. destruct (process_response_alert entity); reflexivity.
Qed.

(** When the loop runs to its end: the alerts it adds to [alerts_to_email]
    are alerts of the feed in feed order, each relevant, unknown to the
    store when the loop started and in the store when it ends; and every
    entity of the feed canonicalizes, the relevant ones with a key being
    known to the store at the end. *)
Lemma main_loop_completed c (entities : list value) :
  forall (acc : list processed_alert) (e : env) (w : world)
         (alerts : list processed_alert) (w' : world),
  main_loop c entities acc e w = (Ok (inr alerts), w') ->
  (exists new,
     alerts = (acc ++ new)%list /\
     subseq new (canonical entities) /\
     Forall (fun a =>
               l1_line_impacted a = true /\
               known (key_of a) (Client.rows_of w) = false /\
               exists now,
                 In (bigquery_interface.row_of a now) (Client.rows_of w'))
            new) /\
  Forall (fun entity =>
            exists a,
              process_response_alert entity = Some a /\
              (l1_line_impacted a = true -> key_of a <> None ->
               known (key_of a) (Client.rows_of w') = true))
         entities.
Proof.
  induction entities as [|entity rest IH]; intros acc e w alerts w' Hrun.
  - injection Hrun as <- <-. split; [|constructor].
    exists []. split; [symmetry; apply app_nil_r|].
    split; constructor.
  - pose proof Hrun as Hturn. loop_turn Hturn a rows; try discriminate.
    + (* known to the store: skipped *)
      pose proof (main_loop_frame _ _ _ _ _ _ _ Hturn) as (_ & Hx & _).
      apply IH in Hturn as [(new & -> & Hsub & Hnew) Hall].
      rewrite canonical_cons.
      match goal with Hp : process_response_alert entity = Some a |- _ =>
        rewrite Hp end.
      split.
      * exists new. split; [reflexivity|]. split; [constructor; exact Hsub|].
        exact Hnew.
      * constructor; [|exact Hall]. exists a. split; [assumption|].
        intros _ _. apply (known_extends _ _ _ Hx).
        unfold Client.rows_of. simpl.
        match goal with Ht : table w = Some rows |- _ => rewrite Ht end.
        assumption.
    + (* new: inserted and appended *)
      pose proof (main_loop_frame _ _ _ _ _ _ _ Hturn) as (_ & Hx & _).
      apply IH in Hturn as [(new & -> & Hsub & Hnew) Hall].
      rewrite canonical_cons.
      match goal with Hp : process_response_alert entity = Some a |- _ =>
        rewrite Hp end.
      unfold Client.rows_of in Hx, Hnew |- *. simpl in Hx, Hnew.
      match goal with Ht : table w = Some rows |- _ => rewrite Ht end.
      match type of Hx with
      | extends (rows ++ [bigquery_interface.row_of a ?t])%list _ =>
          set (now := t) in *
      end.
      assert (Hrow : In (bigquery_interface.row_of a now)
                        match table w' with Some rs => rs | None => [] end).
      { apply (In_extends _ _ _ Hx). apply in_or_app. right. left. reflexivity. }
      split.
      * exists (a :: new). split; [rewrite <- app_assoc; reflexivity|].
        split; [constructor; exact Hsub|].
        constructor.
        -- split; [assumption|]. split; [assumption|]. exists now. exact Hrow.
        -- eapply Forall_impl; [|exact Hnew].
           intros a' (Hrel & Hk & Hin). split; [exact Hrel|]. split; [|exact Hin].
           rewrite known_app in Hk. apply orb_false_iff in Hk. tauto.
      * constructor; [|exact Hall]. exists a. split; [assumption|].
        intros _ Hkey. apply (known_extends _ _ _ Hx).
        rewrite known_app. apply orb_true_iff. right.
        simpl. unfold key_of in *.
        destruct (bq_string_param (alert_id a)) as [s|]; [|congruence].
        rewrite sql_eq_refl. reflexivity.
    + (* not relevant: skipped *)
      apply IH in Hturn as [(new & -> & Hsub & Hnew) Hall].
      rewrite canonical_cons.
      match goal with Hp : process_response_alert entity = Some a |- _ =>
        rewrite Hp end.
      split.
      * exists new. split; [reflexivity|]. split; [constructor; exact Hsub|].
        exact Hnew.
      * constructor; [|exact Hall]. exists a. split; [assumption|].
        intros Hrel. congruence.
Qed.

(** With every relevant alert of the feed known to the store and the store
    answering, the loop only asks: it adds no row and no alert. *)
Lemma main_loop_all_known c (entities : list value) (e : env)
    (rows : list Schema.row) :
  no_bq_fault e ->
  Forall (fun entity =>
            exists a,
              process_response_alert entity = Some a /\
              (l1_line_impacted a = true -> known (key_of a) rows = true))
         entities ->
  forall (acc : list processed_alert) (w : world),
  table w = Some rows ->
  exists tr,
    main_loop c entities acc e w =
      (Ok (inr acc),
       {| table := Some rows; outbox := outbox w; trace := trace w ++ tr |}) /\
    forallb read_only tr = true.
Proof.
  intros Hfault Hall. induction Hall as [|entity rest (a & Hp & Hk) _ IH];
    intros acc w Ht.
  - exists []. split; [|reflexivity]. simpl. unfold ret.
    rewrite app_nil_r, <- Ht. destruct w; reflexivity.
  - rewrite main_loop_cons, Hp.
    destruct (l1_line_impacted a).
    + cbv zeta. rewrite Hfault, Ht, (Hk eq_refl).
      destruct (IH acc (log_event (QueryCount (key_of a)) w) Ht) as (tr & -> & Hro).
      exists (QueryCount (key_of a) :: tr). split; [|exact Hro].
      simpl. rewrite <- app_assoc. reflexivity.
    + apply IH. exact Ht.
Qed.

Lemma known_false_not_in (s : string) (rows : list Schema.row) :
  known (Some s) rows = false -> ~ In (Some s) (id_column rows).
Proof.
  induction rows as [|r rows IH]; simpl; intros Hk; [tauto|].
  apply orb_false_iff in Hk as [Hr Hk]. intros [Heq | Hin]; [|exact (IH Hk Hin)].
  rewrite Heq, sql_eq_refl in Hr. discriminate.
Qed.

Lemma NoDup_snoc {A} (l : list A) (x : A) :
  NoDup l -> ~ In x l -> NoDup (l ++ [x]).
Proof.
  induction l as [|y l IH]; simpl; intros Hnd Hin.
  - repeat constructor. tauto.
  - inversion Hnd as [|? ? Hy Hl]; subst. constructor.
    + intros Hiny. apply in_app_or in Hiny as [?|[->|[]]]; tauto.
    + apply IH; tauto.
Qed.

(** On a feed whose ids are strings the column of ids stays free of
    duplicates. *)
Lemma main_loop_id_column c (entities : list value) :
  ids_are_strings entities ->
  forall (acc : list processed_alert) (e : env) (w : world) r (w' : world),
  main_loop c entities acc e w = (r, w') ->
  NoDup (id_column (Client.rows_of w)) ->
  NoDup (id_column (Client.rows_of w')).
Proof.
  intros Hids. induction Hids as [|entity rest Hid _ IH];
    intros acc e w r w' Hrun Hnd.
  - injection Hrun as <- <-. exact Hnd.
  - loop_turn Hrun a rows; try (injection Hrun as <- <-; exact Hnd);
      try (eapply IH; [exact Hrun | exact Hnd]).
    eapply IH; [exact Hrun|].
    unfold Client.rows_of in Hnd |- *. simpl.
    match goal with Ht : table w = Some rows |- _ => rewrite Ht in Hnd end.
    unfold id_column. rewrite map_app. apply NoDup_snoc; [exact Hnd|].
    match goal with Hp : process_response_alert entity = Some a |- _ =>
      destruct (Hid _ (process_response_alert_id _ _ Hp)) as [s Hs] end.
    simpl. unfold key_of in *. rewrite Hs, bq_string_param_str in *.
    apply known_false_not_in. assumption.
Qed.

End CompletedLoop.

(* ================================================================== *)
(** ** The notification text                                           *)
(* ================================================================== *)

Lemma append_assoc (s1 s2 s3 : string) : (s1 ++ s2) ++ s3 = s1 ++ s2 ++ s3.
Proof. induction s1 as [|ch s1 IH]; simpl; [reflexivity | rewrite IH; reflexivity]. Qed.

Lemma append_empty_r (s : string) : s ++ "" = s.
Proof. induction s as [|ch s IH]; simpl; [reflexivity | rewrite IH; reflexivity]. Qed.

Section NotificationText.
Context {RT : Runtime}.

Lemma concat_lines_cons (l : string) (ls : list string) :
  String.concat "" (l :: ls) = l ++ String.concat "" ls.
Proof. destruct ls; simpl; [rewrite append_empty_r|]; reflexivity. Qed.

Lemma fold_lines (kvs : list (string * string)) :
  forall init,
  fold_left
    (fun email_body_str kv =>
       email_body_str ++ fst kv ++ ": " ++ snd kv ++ String newline "")
    kvs init
  = init ++ String.concat "" (map field_line kvs).
Proof.
  induction kvs as [|kv kvs IH]; intros init.
  - simpl. rewrite append_empty_r. reflexivity.
  - cbn [fold_left map]. rewrite IH, concat_lines_cons, append_assoc. reflexivity.
Qed.

(** The loop with [+=] builds the block of the specification. *)
Lemma format_email_body_block (a : processed_alert) :
  format_email_body a = alert_block a.
Proof.
  unfold format_email_body. rewrite fold_lines.
  unfold items, alert_block, field_line.
  cbn [map fst snd]. rewrite !concat_lines_cons.
  cbn [String.concat]. rewrite !append_assoc, ?append_empty_r.
  reflexivity.
Qed.

(** Joining the blocks with ["===\n"] gives the text of the specification. *)
Lemma mail_text_render (alerts : list processed_alert) :
  mail_text (map format_email_body alerts) = render alerts.
Proof.
  unfold mail_text. induction alerts as [|a rest IH]; [reflexivity|].
  destruct rest as [|b rest].
  - simpl. apply format_email_body_block.
  - change (format_email_body a ++ ("===" ++ String newline "")
            ++ join ("===" ++ String newline "") (map format_email_body (b :: rest))
            = alert_block a ++ "===" ++ String newline "" ++ render (b :: rest)).
    rewrite IH, format_email_body_block. reflexivity.
Qed.

(** In the text, what comes before a block is the text of the alerts before
    it and a delimiter line; the order of the alerts is the order of the
    blocks. *)
Lemma render_app (before after : list processed_alert) :
  before <> [] -> after <> [] ->
  render (before ++ after) =
  render before ++ "===" ++ String newline "" ++ render after.
Proof.
  intros Hb Ha. induction before as [|a before IH]; [congruence|].
  destruct before as [|b before].
  - simpl. destruct after; [congruence | reflexivity].
  - change (render ((a :: b :: before) ++ after))
      with (alert_block a ++ "===" ++ String newline "" ++ render ((b :: before) ++ after)).
    rewrite IH by discriminate.
    change (render (a :: b :: before))
      with (alert_block a ++ "===" ++ String newline "" ++ render (b :: before)).
    rewrite !append_assoc. reflexivity.
Qed.

End NotificationText.

(* ================================================================== *)
(** ** [main], phase by phase                                          *)
(* ================================================================== *)

Lemma fetch_data_eq (e : env) (w : world) :
  fetch_data e w =
  match http_response e with
  | Ok payload => (Ok payload, log_event HttpGet w)
  | Raise RequestException => (Ok JNull, log_event HttpGet w)
  | Raise ex => (Raise ex, log_event HttpGet w)
  end.
Proof.
  unfold fetch_data, try_catch.
  destruct (http_response e) as [payload|[]]; reflexivity.
Qed.

Section MainPhases.
Context {RT : Runtime}.

Lemma main_setup_eq (payload : value) (e : env) (w : world) :
  main_setup payload e w =
  match getitem payload "entity" with
  | Raise ex => (Raise ex, w)
  | Ok entity =>
      match len entity, iter entity with
      | Raise ex, _ => (Raise ex, w)
      | Ok _, entities =>
          let w1 := log_event GetTable w in
          if bq_fault e (List.length (trace w)) then (Raise GoogleCloudError, w1)
          else
            match table w with
            | Some _ =>
                (match entities with
                 | Ok entities => Ok (tt, entities)
                 | Raise ex => Raise ex
                 end, w1)
            | None =>
                let w2 := log_event CreateTable w1 in
                if bq_fault e (List.length (trace w1))
                then (Raise GoogleCloudError, w2)
                else
                  (match entities with
                   | Ok entities => Ok (tt, entities)
                   | Raise ex => Raise ex
                   end, set_table [] w2)
            end
      end
  end.
Proof.
  unfold main_setup, mbind, lift, bigquery_interface.create_bq_client, ret.
  destruct (getitem payload "entity") as [entity|]; [|reflexivity].
  destruct (len entity); [|reflexivity].
  rewrite check_table_exists_eq. cbv zeta.
  destruct (bq_fault e (List.length (trace w))); [reflexivity|].
  destruct (table w) as [rows|] eqn:Et; cbn [negb]; cbv beta iota.
  - destruct (iter entity); reflexivity.
  - rewrite create_new_table_eq. cbv zeta.
    destruct (bq_fault e _); [reflexivity|].
    simpl table. rewrite Et.
    destruct (iter entity); reflexivity.
Qed.

Lemma main_notify_eq (alerts : list processed_alert) (e : env) (w : world) :
  main_notify alerts e w =
  match alerts with
  | [] => (Ok ("Complete.", 200), w)
  | _ =>
      let w1 := log_event (SmtpSend (render alerts)) w in
      match smtp_error e with
      | None => (Ok ("Complete.", 200), deliver (render alerts) w1)
      | Some SMTPException => (Ok ("Error: Unable to send email.", 500), w1)
      | Some ex => (Raise ex, w1)
      end
  end.
Proof.
  destruct alerts as [|a rest]; [reflexivity|].
  unfold main_notify.
  replace (0 <? Z.of_nat (List.length (a :: rest))) with true
    by (symmetry; apply Z.ltb_lt; simpl; lia).
  unfold mbind, send_email, try_catch. rewrite mail_text_render.
  destruct (smtp_error e) as [[]|]; reflexivity.
Qed.

Lemma main_eq (gcp_arg : string) (e : env) (w : world) :
  main gcp_arg e w =
  match fetch_data e w with
  | (Ok payload, w1) =>
      if is_None payload
      then (Ok ("Error: The API response is invalid", 500), w1)
      else
        match main_setup payload e w1 with
        | (Ok s, w0) =>
            match main_loop (fst s) (snd s) [] e w0 with
            | (Ok (inl result), w') => (Ok result, w')
            | (Ok (inr alerts_to_email), w') => main_notify alerts_to_email e w'
            | (Raise ex, w') => (Raise ex, w')
            end
        | (Raise ex, w0) => (Raise ex, w0)
        end
  | (Raise ex, w1) => (Raise ex, w1)
  end.
Proof.
  unfold main. unfold mbind at 1.
  destruct (fetch_data e w) as [[payload|ex] w1]; [|reflexivity].
  destruct (is_None payload); [reflexivity|].
  unfold mbind.
  destruct (main_setup payload e w1) as [[s|ex] w0]; [|reflexivity].
  destruct (main_loop (fst s) (snd s) [] e w0) as [[[result|alerts]|ex] w'];
    reflexivity.
Qed.

(** The run, from the point where it reaches its loop. *)
Lemma main_from_loop (gcp_arg : string) (e : env) (w : world)
    (entities : list value) (w0 : world) :
  reaches_loop e w entities w0 ->
  main gcp_arg e w =
  match main_loop tt entities [] e w0 with
  | (Ok (inl result), w1) => (Ok result, w1)
  | (Ok (inr alerts_to_email), w1) => main_notify alerts_to_email e w1
  | (Raise ex, w1) => (Raise ex, w1)
  end.
Proof.
  intros (payload & Hfetch & Hnull & Hsetup).
  unfold main. unfold mbind at 1. rewrite Hfetch, Hnull.
  unfold mbind. rewrite Hsetup. simpl fst. simpl snd.
  destruct (main_loop tt entities [] e w0) as [[[result|alerts]|ex] w1];
    reflexivity.
Qed.

(** Every run either stops before its loop, leaving rows and mails as they
    were, or reaches it. *)
Lemma main_reaches_loop_or_stops (gcp_arg : string) (e : env) (w : world) :
  (exists entities w0, reaches_loop e w entities w0) \/
  (Client.rows_of (snd (main gcp_arg e w)) = Client.rows_of w /\
   outbox (snd (main gcp_arg e w)) = outbox w /\
   (forall r, fst (main gcp_arg e w) = Ok r ->
              r = ("Error: The API response is invalid", 500)) /\
   mail_calls (trace (snd (main gcp_arg e w))) = mail_calls (trace w)).
Proof.
  assert (Hmc : forall ev tr, mail_call ev = false ->
            mail_calls (tr ++ [ev]) = mail_calls tr).
  { intros ev tr Hev. unfold mail_calls. rewrite filter_app. simpl.
    rewrite Hev. apply app_nil_r. }
  unfold reaches_loop. rewrite main_eq, fetch_data_eq.
  destruct (http_response e) as [payload|ex].
  - destruct (is_None payload) eqn:Hnull.
    { right. simpl. unfold mail_calls in *. rewrite (Hmc HttpGet) by reflexivity.
      repeat split; auto. intros r [= <-]. reflexivity. }
    destruct (main_setup payload e (log_event HttpGet w)) as [[[[] entities]|ex] w0] eqn:Hs.
    + left. exists entities, w0, payload. auto.
    + right. rewrite main_setup_eq in Hs.
      assert (Hw0 : Client.rows_of w0 = Client.rows_of w /\ outbox w0 = outbox w /\
                    mail_calls (trace w0) = mail_calls (trace w)).
      { destruct (getitem payload "entity") as [entity|];
          [|injection Hs as _ <-; cbn [trace log_event outbox];
            rewrite (Hmc HttpGet) by reflexivity; auto].
        destruct (len entity);
          [|injection Hs as _ <-; cbn [trace log_event outbox];
            rewrite (Hmc HttpGet) by reflexivity; auto].
        cbv zeta in Hs.
        destruct (bq_fault e _);
          [injection Hs as _ <-; cbn [trace log_event outbox];
           rewrite !Hmc by reflexivity; auto|].
        unfold Client.rows_of. simpl table in *.
        destruct (table w) as [rows|] eqn:Et.
        - injection Hs as _ <-; cbn [trace log_event outbox table];
            rewrite !Hmc, Et by reflexivity; auto.
        - destruct (bq_fault e _);
            injection Hs as _ <-; cbn [trace log_event outbox table set_table];
            rewrite !Hmc, ?Et by reflexivity; auto. }
      cbn [fst snd]. destruct Hw0 as (? & ? & ?). repeat split; auto. discriminate.
  - right.
    assert (Hstop : Client.rows_of (log_event HttpGet w) = Client.rows_of w /\
                    outbox (log_event HttpGet w) = outbox w /\
                    mail_calls (trace (log_event HttpGet w)) = mail_calls (trace w)).
    { cbn [trace log_event outbox]. rewrite (Hmc HttpGet) by reflexivity. auto. }
    destruct Hstop as (? & ? & ?).
    destruct ex; cbn [fst snd]; repeat split; auto; try discriminate.
    intros r [= <-]. reflexivity.
Qed.

End MainPhases.

Section RunEffects.
Context {RT : Runtime}.

(** Where the loop starts: the table exists and holds the rows it held,
    nothing has been mailed, and the entities are those of the payload. *)
Lemma reaches_loop_frame (e : env) (w : world) (entities : list value) (w0 : world) :
  reaches_loop e w entities w0 ->
  table w0 = Some (Client.rows_of w) /\
  outbox w0 = outbox w /\
  mail_calls (trace w0) = mail_calls (trace w) /\
  (exists payload,
     http_response e = Ok payload /\ is_None payload = false /\
     (entity <- getitem payload "entity" ;; iter entity)%result = Ok entities) /\
  (table w <> None -> w0 = log_event GetTable (log_event HttpGet w)).
Proof.
  intros (payload & Hfetch & Hnull & Hsetup).
  assert (Hresp : http_response e = Ok payload).
  { rewrite fetch_data_eq in Hfetch.
    destruct (http_response e) as [p|[]]; try discriminate; try congruence.
    injection Hfetch as <-. discriminate. }
  rewrite main_setup_eq in Hsetup.
  destruct (getitem payload "entity") as [entity|] eqn:Hent; [|discriminate].
  destruct (len entity); [|discriminate].
  cbv zeta in Hsetup.
  destruct (bq_fault e _); [discriminate|].
  assert (Hmc : forall ev tr, mail_call ev = false ->
            mail_calls (tr ++ [ev]) = mail_calls tr).
  { intros ev tr Hev. unfold mail_calls. rewrite filter_app. simpl.
    rewrite Hev. apply app_nil_r. }
  unfold Client.rows_of. simpl table in Hsetup.
  destruct (table w) as [rows|] eqn:Et.
  - destruct (iter entity) as [es|] eqn:Hit; [|discriminate].
    injection Hsetup as <- <-. cbn [trace log_event outbox table].
    rewrite !Hmc, Et by reflexivity. repeat split; auto.
    exists payload. rewrite Hent. simpl. rewrite Hit. auto.
  - destruct (bq_fault e _); [discriminate|].
    destruct (iter entity) as [es|] eqn:Hit; [|discriminate].
    injection Hsetup as <- <-. cbn [trace log_event outbox table set_table].
    rewrite !Hmc by reflexivity. repeat split; auto.
    + exists payload. rewrite Hent. simpl. rewrite Hit. auto.
    + congruence.
Qed.

(** With the table in place and BigQuery answering, a payload that once
    led a run to its loop does so again, after two calls. *)
Lemma reaches_loop_again (e : env) (w : world) (payload : value)
    (entities : list value) :
  http_response e = Ok payload ->
  is_None payload = false ->
  (entity <- getitem payload "entity" ;; iter entity)%result = Ok entities ->
  no_bq_fault e ->
  table w <> None ->
  reaches_loop e w entities (log_event GetTable (log_event HttpGet w)).
Proof.
  intros Hresp Hnull Hent Hfault Ht.
  exists payload. rewrite fetch_data_eq, Hresp. repeat split; auto.
  rewrite main_setup_eq.
  destruct (getitem payload "entity") as [entity|]; [|discriminate].
  simpl in Hent.
  assert (Hlen : exists n, len entity = Ok n)
    by (destruct entity; try discriminate; eexists; reflexivity).
  destruct Hlen as [n ->]. cbv zeta. rewrite Hfault. simpl table.
  destruct (table w); [|congruence]. rewrite Hent. reflexivity.
Qed.

(** What a run, whatever its outcome, does to the rows and to the mails:
    rows are only added, and keep their ids distinct; at most one mail
    goes out, which renders alerts that the store did not know. *)
Lemma run_effect (e : env) (w : world) :
  extends (Client.rows_of w) (Client.rows_of (snd (run e w))) /\
  (pairwise_distinct_ids (Client.rows_of w) ->
   pairwise_distinct_ids (Client.rows_of (snd (run e w)))) /\
  (outbox (snd (run e w)) = outbox w \/
   fst (run e w) = Ok ("Complete.", 200) /\
   exists alerts,
     outbox (snd (run e w)) = (outbox w ++ [render alerts])%list /\
     Forall (fun a => known (key_of a) (Client.rows_of w) = false) alerts).
Proof.
  unfold run.
  destruct (main_reaches_loop_or_stops "Running locally." e w)
    as [(entities & w0 & Hreach) | (Hrows & Hout & _)].
  2:{ rewrite Hrows. auto using extends_refl. }
  rewrite (main_from_loop _ _ _ _ _ Hreach).
  apply reaches_loop_frame in Hreach as (Ht0 & Ho0 & _).
  assert (Hr0 : Client.rows_of w0 = Client.rows_of w)
    by (unfold Client.rows_of at 1; rewrite Ht0; reflexivity).
  destruct (main_loop tt entities [] e w0) as [r w1] eqn:Hloop.
  pose proof (main_loop_frame _ _ _ _ _ _ _ Hloop) as (Ho1 & Hx1 & _ & _ & Hd1).
  rewrite Hr0 in Hx1, Hd1. rewrite Ho0 in Ho1.
  destruct r as [[result|alerts]|ex]; cbn [snd]; auto.
  rewrite main_notify_eq.
  destruct alerts as [|a rest] eqn:Ealerts; cbn [snd]; auto.
  rewrite <- Ealerts in *.
  assert (Hfresh : Forall (fun a => known (key_of a) (Client.rows_of w) = false) alerts).
  { apply main_loop_completed in Hloop as [(new & -> & _ & Hnew) _].
    simpl. rewrite Hr0 in Hnew.
    eapply Forall_impl; [|exact Hnew]. intros ? (_ & ? & _). assumption. }
  destruct (smtp_error e) as [[]|]; cbn [snd]; auto.
  split; [exact Hx1|]. split; [exact Hd1|].
  right. split; [reflexivity|]. exists alerts. split; [|exact Hfresh].
  simpl. rewrite Ho1. reflexivity.
Qed.

(** A run on a feed whose ids are strings keeps the column of ids free of
    duplicates. *)
Lemma run_id_column (e : env) (w : world) :
  feed_ids_are_strings e ->
  NoDup (id_column (Client.rows_of w)) ->
  NoDup (id_column (Client.rows_of (snd (run e w)))).
Proof.
  intros Hids Hnd. unfold run.
  destruct (main_reaches_loop_or_stops "Running locally." e w)
    as [(entities & w0 & Hreach) | (Hrows & _)].
  2:{ rewrite Hrows. exact Hnd. }
  rewrite (main_from_loop _ _ _ _ _ Hreach).
  apply reaches_loop_frame in Hreach as (Ht0 & _ & _ & (payload & Hresp & _ & Hent) & _).
  assert (Hr0 : Client.rows_of w0 = Client.rows_of w)
    by (unfold Client.rows_of at 1; rewrite Ht0; reflexivity).
  unfold feed_ids_are_strings in Hids. rewrite Hresp in Hids.
  unfold feed_entities in Hids. rewrite Hent in Hids.
  destruct (main_loop tt entities [] e w0) as [r w1] eqn:Hloop.
  apply (main_loop_id_column _ _ Hids) in Hloop; [|rewrite Hr0; exact Hnd].
  destruct r as [[result|alerts]|ex]; cbn [snd]; auto.
  rewrite main_notify_eq.
  destruct alerts as [|a rest]; cbn [snd]; auto.
  destruct (smtp_error e) as [[]|]; cbn [snd]; exact Hloop.
Qed.

End RunEffects.

Lemma mail_calls_store_calls (t tr : list event) :
  forallb store_call tr = true -> mail_calls (t ++ tr) = mail_calls t.
Proof.
  intros Hsc. unfold mail_calls. rewrite filter_app.
  replace (filter mail_call tr) with (@nil event); [apply app_nil_r|].
  induction tr as [|ev tr IH]; [reflexivity|].
  simpl in Hsc. apply andb_true_iff in Hsc as [Hev Hsc].
  simpl. destruct ev; try discriminate; simpl; auto.
Qed.

Lemma runs_cons {RT : Runtime} (e : env) (es : list env) (w : world) :
  runs (e :: es) w = runs es (snd (run e w)).
Proof. reflexivity. Qed.

Section RunBatches.
Context {RT : Runtime}.

(** Over runs, rows are only added. *)
Lemma runs_extends (es : list env) (w : world) :
  extends (Client.rows_of w) (Client.rows_of (runs es w)).
Proof.
  revert w. induction es as [|e es IH]; intros w; [apply extends_refl|].
  rewrite runs_cons. destruct (run_effect e w) as (Hx & _).
  eapply extends_trans; [exact Hx | apply IH].
Qed.

(** Over runs, the ids that the store's [=] can tell apart stay distinct. *)
Lemma runs_pairwise_distinct_ids (es : list env) (w : world) :
  pairwise_distinct_ids (Client.rows_of w) ->
  pairwise_distinct_ids (Client.rows_of (runs es w)).
Proof.
  revert w. induction es as [|e es IH]; intros w Hd; [exact Hd|].
  rewrite runs_cons. apply IH. destruct (run_effect e w) as (_ & Hpd & _). auto.
Qed.

(** Over runs on feeds whose ids are strings, the column of ids stays free
    of duplicates. *)
Lemma runs_id_column (es : list env) (w : world) :
  Forall feed_ids_are_strings es ->
  NoDup (id_column (Client.rows_of w)) ->
  NoDup (id_column (Client.rows_of (runs es w))).
Proof.
  revert w. induction es as [|e es IH]; intros w Hids Hnd; [exact Hnd|].
  inversion Hids as [|? ? He Hes]; subst.
  rewrite runs_cons. apply IH; [exact Hes|]. apply run_id_column; assumption.
Qed.

(** The batch of a run that reaches its loop is what the loop collects. *)
Lemma batch_of_run_reaches (e : env) (w : world) (entities : list value)
    (w0 : world) :
  reaches_loop e w entities w0 ->
  batch_of_run e w =
  match main_loop tt entities [] e w0 with
  | (Ok (inr alerts_to_email), _) => alerts_to_email
  | _ => []
  end.
Proof.
  intros (payload & Hfetch & Hnull & Hsetup).
  unfold batch_of_run. rewrite Hfetch, Hnull, Hsetup. reflexivity.
Qed.

(** A run that does not reach its loop has no batch. *)
Lemma batch_of_run_nil_or_reaches (e : env) (w : world) :
  batch_of_run e w = [] \/ exists entities w0, reaches_loop e w entities w0.
Proof.
  unfold batch_of_run.
  destruct (fetch_data e w) as [[payload|ex] w1] eqn:Hfetch; [|left; reflexivity].
  destruct (is_None payload) eqn:Hnull; [left; reflexivity|].
  assert (Hw1 : w1 = log_event HttpGet w).
  { rewrite fetch_data_eq in Hfetch.
    destruct (http_response e) as [p|[]]; congruence. }
  subst w1.
  destruct (main_setup payload e (log_event HttpGet w))
    as [[[[] entities]|ex] w0] eqn:Hsetup; [|left; reflexivity].
  right. exists entities, w0, payload. auto.
Qed.

(** What a run, whatever its outcome, hands to the mail transport: the
    text of its batch, in one call, if the batch is not empty.  The alerts
    of the batch are alerts that the store did not know when the run
    started; a mail delivered by the run is that text. *)
Lemma run_mails_its_batch (e : env) (w : world) :
  Forall (fun a => known (key_of a) (Client.rows_of w) = false) (batch_of_run e w) /\
  mail_calls (trace (snd (run e w))) =
    (mail_calls (trace w) ++ map SmtpSend (mail_of_batch (batch_of_run e w)))%list /\
  (outbox (snd (run e w)) = outbox w \/
   outbox (snd (run e w)) = (outbox w ++ mail_of_batch (batch_of_run e w))%list) /\
  (smtp_error e = None ->
   outbox (snd (run e w)) = (outbox w ++ mail_of_batch (batch_of_run e w))%list).
Proof.
  assert (Hreaches : forall entities w0, reaches_loop e w entities w0 ->
    Forall (fun a => known (key_of a) (Client.rows_of w) = false) (batch_of_run e w) /\
    mail_calls (trace (snd (run e w))) =
      (mail_calls (trace w) ++ map SmtpSend (mail_of_batch (batch_of_run e w)))%list /\
    (outbox (snd (run e w)) = outbox w \/
     outbox (snd (run e w)) = (outbox w ++ mail_of_batch (batch_of_run e w))%list) /\
    (smtp_error e = None ->
     outbox (snd (run e w)) = (outbox w ++ mail_of_batch (batch_of_run e w))%list)).
  { intros entities w0 Hreach.
    rewrite (batch_of_run_reaches _ _ _ _ Hreach). unfold run.
    rewrite (main_from_loop _ _ _ _ _ Hreach).
    apply reaches_loop_frame in Hreach as (Ht0 & Ho0 & Hm0 & _).
    assert (Hr0 : Client.rows_of w0 = Client.rows_of w)
      by (unfold Client.rows_of at 1; rewrite Ht0; reflexivity).
    destruct (main_loop tt entities [] e w0) as [r w1] eqn:Hloop.
    pose proof (main_loop_frame _ _ _ _ _ _ _ Hloop)
      as (Ho1 & _ & _ & (tr & Htr & Hsc) & _).
    assert (Hm1 : mail_calls (trace w1) = mail_calls (trace w))
      by (rewrite Htr, mail_calls_store_calls by exact Hsc; exact Hm0).
    rewrite Ho0 in Ho1.
    destruct r as [[result|alerts]|ex]; cbn [snd mail_of_batch map];
      rewrite ?app_nil_r; auto.
    assert (Hfresh : Forall (fun a => known (key_of a) (Client.rows_of w) = false) alerts).
    { apply main_loop_completed in Hloop as [(new & -> & _ & Hnew) _].
      simpl. rewrite Hr0 in Hnew.
      eapply Forall_impl; [|exact Hnew]. intros ? (_ & ? & _). assumption. }
    split; [exact Hfresh|].
    rewrite main_notify_eq.
    destruct alerts as [|a rest] eqn:Ealerts;
      [cbn [snd mail_of_batch map]; rewrite ?app_nil_r; auto|].
    rewrite <- Ealerts in *.
    assert (Hbatch : mail_of_batch alerts = [render alerts])
      by (rewrite Ealerts; reflexivity).
    rewrite Hbatch. cbv zeta. cbn [map].
    assert (Hlog : mail_calls (trace (log_event (SmtpSend (render alerts)) w1)) =
              (mail_calls (trace w) ++ [SmtpSend (render alerts)])%list).
    { simpl. unfold mail_calls in *. rewrite filter_app, Hm1. reflexivity. }
    destruct (smtp_error e) as [[]|]; cbn [snd];
      (split; [exact Hlog|]);
      (split; [first [left; exact Ho1 | right; simpl; rewrite Ho1; reflexivity]|]);
      try discriminate.
    intros _. simpl. rewrite Ho1. reflexivity. }
  destruct (batch_of_run_nil_or_reaches e w) as [Hnil | (entities & w0 & Hreach)];
    [|eapply Hreaches; eassumption].
  destruct (main_reaches_loop_or_stops "Running locally." e w)
    as [(entities & w0 & Hreach) | (_ & Hout & _ & Hmail)];
    [eapply Hreaches; eassumption|].
  fold (run e w) in Hout, Hmail.
  rewrite Hnil. cbn [mail_of_batch map]. rewrite !app_nil_r. auto.
Qed.

End RunBatches.

(* ================================================================== *)
(** ** The properties of the pipeline                                  *)
(* ================================================================== *)

Section Pipeline.
Context {RT : Runtime}.

(** C1 (amended). Uniqueness: over any sequence of runs, one after the
    other, on feeds whose entity ids are strings, a store whose rows carry
    pairwise distinct [alert_id] values never comes to hold two rows with
    the same [alert_id]: a row is only inserted after the existence query on
    its id has counted no row.  Whatever the feeds, no two rows ever carry
    the same non-NULL [alert_id] (ids that the store's own [=] equates), and
    no row is ever removed.  Rows whose [alert_id] is NULL are outside this:
    the existence query never matches them. *)
Theorem store_ids_stay_unique (es : list env) (w : world) :
  (Forall feed_ids_are_strings es ->
   NoDup (id_column (Client.rows_of w)) ->
   NoDup (id_column (Client.rows_of (runs es w)))) /\
  (pairwise_distinct_ids (Client.rows_of w) ->
   pairwise_distinct_ids (Client.rows_of (runs es w))) /\
  extends (Client.rows_of w) (Client.rows_of (runs es w)).
Proof.
  split; [apply runs_id_column|].
  split; [apply runs_pairwise_distinct_ids | apply runs_extends].
Qed.

(** C8. Fetch failure: when [fetch_data] yields no payload, the run returns
    [("Error: The API response is invalid", 500)] at once: the table and the
    mails are as before, and the only external call of the run is the HTTP
    request, so there is no call to the store or to the mail transport. *)
Theorem fetch_failure_stops_run (e : env) (w : world) :
  fst (fetch_data e w) = Ok JNull ->
  fst (run e w) = Ok ("Error: The API response is invalid", 500) /\
  table (snd (run e w)) = table w /\
  outbox (snd (run e w)) = outbox w /\
  trace (snd (run e w)) = (trace w ++ [HttpGet])%list.
Proof.
  intros Hfetch. unfold run. rewrite main_eq.
  rewrite fetch_data_eq in Hfetch |- *.
  destruct (http_response e) as [payload|[]]; simpl in Hfetch; try discriminate.
  - injection Hfetch as ->. repeat split.
  - repeat split.
Qed.

(** C5. Fail fast: when the run has come through the entities before entity
    [bad] and [bad] does not canonicalize, the run ends there with the
    malformed-record message and status 500, in the world in which the loop
    reached [bad]: whatever follows [bad] in the feed plays no part, no row
    is inserted afterwards, and no mail is sent in the run. *)
Theorem malformed_entity_aborts_run (e : env) (w : world)
    (pre : list value) (bad : value) (post : list value)
    (w0 w1 : world) (pending : list processed_alert) :
  reaches_loop e w (pre ++ bad :: post) w0 ->
  main_loop tt pre [] e w0 = (Ok (inr pending), w1) ->
  process_response_alert bad = None ->
  run e w = (Ok ("Error: Unable to process result " ++ py_str bad, 500), w1) /\
  outbox w1 = outbox w /\
  mail_calls (trace w1) = mail_calls (trace w).
Proof.
  intros Hreach Hpre Hbad. unfold run.
  rewrite (main_from_loop _ _ _ _ _ Hreach), main_loop_app, Hpre.
  rewrite main_loop_cons, Hbad.
  apply reaches_loop_frame in Hreach as (_ & Ho0 & Hm0 & _).
  apply main_loop_frame in Hpre as (Ho1 & _ & _ & (tr & Htr & Hsc) & _).
  split; [reflexivity|]. split; [congruence|].
  rewrite Htr, mail_calls_store_calls by exact Hsc. exact Hm0.
Qed.

(** No rollback, for the one failure that [send_email] catches: when the
    loop has run to its end with alerts to mail and the SMTP session raises
    [SMTPException], the run returns [("Error: Unable to send email.", 500)];
    the table is the table the loop left, every alert of the batch has its
    row in it, and no row that was there before the run is gone. *)
Lemma smtp_exception_keeps_rows (e : env) (w : world)
    (entities : list value) (w0 w1 : world) (alerts : list processed_alert) :
  reaches_loop e w entities w0 ->
  main_loop tt entities [] e w0 = (Ok (inr alerts), w1) ->
  alerts <> [] ->
  smtp_error e = Some SMTPException ->
  fst (run e w) = Ok ("Error: Unable to send email.", 500) /\
  table (snd (run e w)) = table w1 /\
  Forall (fun a =>
            exists now,
              In (bigquery_interface.row_of a now) (Client.rows_of (snd (run e w))))
         alerts /\
  extends (Client.rows_of w) (Client.rows_of (snd (run e w))).
Proof.
  intros Hreach Hloop Hne Hsmtp. unfold run.
  rewrite (main_from_loop _ _ _ _ _ Hreach), Hloop, main_notify_eq, Hsmtp.
  apply reaches_loop_frame in Hreach as (Ht0 & Ho0 & _).
  pose proof (main_loop_frame _ _ _ _ _ _ _ Hloop) as (Ho1 & Hx1 & _).
  apply main_loop_completed in Hloop as [(new & Hnew & _ & Hrows) _].
  simpl in Hnew. subst new.
  assert (Hr0 : Client.rows_of w0 = Client.rows_of w)
    by (unfold Client.rows_of at 1; rewrite Ht0; reflexivity).
  destruct alerts as [|a rest]; [congruence|]. cbn [fst snd].
  repeat split.
  - eapply Forall_impl; [|exact Hrows]. intros ? (_ & _ & ?). assumption.
  - rewrite <- Hr0. exact Hx1.
Qed.

(** C9. Batching: when the loop has run to its end with [alerts] to mail,
    these are alerts of the feed in feed order.  If there are none, the run
    returns [("Complete.", 200)] without a call to the mail transport.  If
    there are some, the transport is called once in the run, with the text
    [render alerts]: for each alert the seven lines [alert_id: ...],
    [url: ...], [title: ...], [description_html: ...],
    [formatted_start_date: ...], [formatted_end_date: ...] and
    [l1_line_impacted: ...] of [alert_block], the blocks of the alerts in
    that order and a line [===] between two blocks; and if the session
    succeeds this text is the mail delivered. *)
Theorem notification_batching (e : env) (w : world)
    (entities : list value) (w0 w1 : world) (alerts : list processed_alert) :
  reaches_loop e w entities w0 ->
  main_loop tt entities [] e w0 = (Ok (inr alerts), w1) ->
  subseq alerts (canonical entities) /\
  (alerts = [] ->
   run e w = (Ok ("Complete.", 200), w1) /\
   mail_calls (trace w1) = mail_calls (trace w)) /\
  (alerts <> [] ->
   mail_calls (trace (snd (run e w))) =
     (mail_calls (trace w) ++ [SmtpSend (render alerts)])%list /\
   (smtp_error e = None ->
    fst (run e w) = Ok ("Complete.", 200) /\
    outbox (snd (run e w)) = (outbox w ++ [render alerts])%list)) /\
  (forall before after,
     alerts = (before ++ after)%list -> before <> [] -> after <> [] ->
     render alerts =
     render before ++ "===" ++ String newline "" ++ render after).
Proof.
  intros Hreach Hloop.
  pose proof (main_from_loop "Running locally." _ _ _ _ Hreach) as Hmain.
  rewrite Hloop, main_notify_eq in Hmain. fold (run e w) in Hmain.
  apply reaches_loop_frame in Hreach as (_ & Ho0 & Hm0 & _).
  pose proof (main_loop_frame _ _ _ _ _ _ _ Hloop)
    as (Ho1 & _ & _ & (tr & Htr & Hsc) & _).
  assert (Hm1 : mail_calls (trace w1) = mail_calls (trace w))
    by (rewrite Htr, mail_calls_store_calls by exact Hsc; exact Hm0).
  apply main_loop_completed in Hloop as [(new & Hnew & Hsub & _) _].
  simpl in Hnew. subst new.
  split; [exact Hsub|]. split; [|split].
  - intros ->. split; [exact Hmain | exact Hm1].
  - intros Hne. destruct alerts as [|a rest] eqn:Ealerts; [congruence|].
    rewrite <- Ealerts in *. rewrite Hmain. cbv zeta. split.
    + assert (Hlog : forall x, mail_calls (trace (log_event (SmtpSend x) w1)) =
                (mail_calls (trace w) ++ [SmtpSend x])%list).
      { intros x. simpl. unfold mail_calls in *. rewrite filter_app, Hm1.
        reflexivity. }
      destruct (smtp_error e) as [[]|]; cbn [snd]; apply Hlog.
    + intros ->. cbn [fst snd]. split; [reflexivity|].
      simpl. rewrite Ho1, Ho0. reflexivity.
  - intros before after -> Hb Ha. apply render_app; assumption.
Qed.

(** C10 (amended). A lost notification stays lost: take an alert whose id
    is a string and whose row is in the store after a run that did not
    complete (a later entity was malformed, the mail could not be sent, the
    run raised).  After any number of later runs the row is still there,
    and in any run that follows, the batch handed to the mailer holds no
    alert with that id, so not this alert; the one call that run makes to
    the mail transport, if any, carries the text of that batch, and a mail
    it delivers is that text.  The existence query finds the id, so the
    loop never appends the alert to its pending alerts again. *)
Theorem lost_notification_is_never_sent (e0 : env) (w : world)
    (a : processed_alert) (k now : string) (later : list env) (e : env) :
  alert_id a = JStr k ->
  fst (run e0 w) <> Ok ("Complete.", 200) ->
  In (bigquery_interface.row_of a now) (Client.rows_of (snd (run e0 w))) ->
  In (bigquery_interface.row_of a now)
     (Client.rows_of (runs later (snd (run e0 w)))) /\
  Forall (fun b => key_of b <> key_of a)
         (batch_of_run e (runs later (snd (run e0 w)))) /\
  ~ In a (batch_of_run e (runs later (snd (run e0 w)))) /\
  mail_calls (trace (snd (run e (runs later (snd (run e0 w)))))) =
    (mail_calls (trace (runs later (snd (run e0 w)))) ++
     map SmtpSend
       (mail_of_batch (batch_of_run e (runs later (snd (run e0 w))))))%list /\
  (outbox (snd (run e (runs later (snd (run e0 w))))) =
     outbox (runs later (snd (run e0 w))) \/
   outbox (snd (run e (runs later (snd (run e0 w))))) =
     (outbox (runs later (snd (run e0 w))) ++
      mail_of_batch (batch_of_run e (runs later (snd (run e0 w)))))%list).
Proof.
  intros Hid _ Hin.
  set (w' := runs later (snd (run e0 w))).
  assert (Hin' : In (bigquery_interface.row_of a now) (Client.rows_of w'))
    by (eapply In_extends; [apply runs_extends | exact Hin]).
  assert (Hkey : key_of a = Some k)
    by (unfold key_of; rewrite Hid; apply bq_string_param_str).
  assert (Hknown : known (key_of a) (Client.rows_of w') = true).
  { unfold known. apply existsb_exists.
    exists (bigquery_interface.row_of a now). split; [exact Hin'|].
    cbn [Schema.alert_id bigquery_interface.row_of]. fold (key_of a).
    rewrite Hkey. apply sql_eq_refl. }
  destruct (run_mails_its_batch e w') as (Hfresh & Hcalls & Hout & _).
  assert (Hother : Forall (fun b => key_of b <> key_of a) (batch_of_run e w')).
  { eapply Forall_impl; [|exact Hfresh].
    intros b Hb Heq. cbv beta in Hb. rewrite Heq in Hb. congruence. }
  split; [exact Hin'|]. split; [exact Hother|]. split; [|split; assumption].
  intros Hina. rewrite Forall_forall in Hother.
  exact (Hother a Hina eq_refl).
Qed.

(** The only [return] inside the loop is that of a malformed record. *)
Lemma main_loop_returns c (entities : list value) :
  forall (acc : list processed_alert) (e : env) (w : world) result (w' : world),
  main_loop c entities acc e w = (Ok (inl result), w') ->
  exists entity,
    result = ("Error: Unable to process result " ++ py_str entity, 500).
Proof.
  induction entities as [|entity rest IH]; intros acc e w result w' Hrun.
  - discriminate.
  - loop_turn Hrun a rows; try discriminate;
      try (eapply IH; eassumption).
    injection Hrun as <- _. eexists. reflexivity.
Qed.

(** A run whose result is that of a completed loop did complete its loop;
    the table it leaves is the table the loop left. *)
Lemma loop_completed_inv (e : env) (w : world) :
  loop_completed (fst (run e w)) ->
  exists entities w0 alerts w1,
    reaches_loop e w entities w0 /\
    main_loop tt entities [] e w0 = (Ok (inr alerts), w1) /\
    table (snd (run e w)) = table w1.
Proof.
  unfold run. intros Hdone.
  destruct (main_reaches_loop_or_stops "Running locally." e w)
    as [(entities & w0 & Hreach) | (_ & _ & Hstop & _)].
  2:{ destruct Hdone as [Hd | Hd]; specialize (Hstop _ Hd); discriminate. }
  exists entities, w0.
  rewrite (main_from_loop _ _ _ _ _ Hreach) in Hdone |- *.
  destruct (main_loop tt entities [] e w0) as [[[result|alerts]|ex] w1] eqn:Hloop.
  - apply main_loop_returns in Hloop as [entity ->].
    destruct Hdone as [Hd | Hd]; simpl in Hd; discriminate.
  - exists alerts, w1. split; [exact Hreach|]. split; [reflexivity|].
    rewrite main_notify_eq.
    destruct alerts; [reflexivity|].
    cbv zeta. destruct (smtp_error e) as [[]|]; reflexivity.
  - destruct Hdone; discriminate.
Qed.

(** C2 (amended). Idempotence: take a run on a payload whose entity ids
    are strings, whose loop ran to its end (the run returned the success
    result, or failed only to send its mail).  A second run on the same
    payload, started in the world the first one left and with BigQuery
    answering, returns [("Complete.", 200)], leaves the table and the mails
    as they are, and makes only calls that read: no insert and no mail. *)
Theorem second_run_is_idempotent (payload : value) (e1 e2 : env) (w : world) :
  http_response e1 = Ok payload ->
  http_response e2 = Ok payload ->
  ids_are_strings (feed_entities payload) ->
  no_bq_fault e2 ->
  loop_completed (fst (run e1 w)) ->
  fst (run e2 (snd (run e1 w))) = Ok ("Complete.", 200) /\
  table (snd (run e2 (snd (run e1 w)))) = table (snd (run e1 w)) /\
  outbox (snd (run e2 (snd (run e1 w)))) = outbox (snd (run e1 w)) /\
  exists tr,
    trace (snd (run e2 (snd (run e1 w)))) = (trace (snd (run e1 w)) ++ tr)%list /\
    forallb read_only tr = true.
Proof.
  intros Hresp1 Hresp2 Hids Hfault Hdone.
  apply loop_completed_inv in Hdone
    as (entities & w0 & alerts & wl & Hreach & Hloop & Htable).
  set (w1 := snd (run e1 w)) in *.
  apply reaches_loop_frame in Hreach
    as (Ht0 & _ & _ & (payload' & Hresp1' & Hnull & Hent) & _).
  assert (payload' = payload) by congruence. subst payload'.
  assert (Hfeed : feed_entities payload = entities)
    by (unfold feed_entities; rewrite Hent; reflexivity).
  rewrite Hfeed in Hids.
  pose proof (main_loop_frame _ _ _ _ _ _ _ Hloop) as (_ & _ & Htl & _).
  assert (Ht1 : table w1 <> None)
    by (rewrite Htable; apply Htl; rewrite Ht0; discriminate).
  destruct (table w1) as [rows|] eqn:Erows; [clear Ht1 | congruence].
  assert (Hrows : Client.rows_of wl = rows)
    by (unfold Client.rows_of; rewrite <- Htable; reflexivity).
  (* every relevant alert of the feed is known to the store *)
  assert (Hall : Forall (fun entity =>
            exists a, process_response_alert entity = Some a /\
                      (l1_line_impacted a = true -> known (key_of a) rows = true))
            entities).
  { apply main_loop_completed in Hloop as [_ Hall]. rewrite Hrows in Hall.
    unfold ids_are_strings in Hids.
    rewrite Forall_forall in *. intros entity Hin.
    destruct (Hall entity Hin) as (a & Hpa & Hk).
    exists a. split; [exact Hpa|]. intros Hrel. apply Hk; [exact Hrel|].
    destruct (Hids entity Hin _ (process_response_alert_id _ _ Hpa)) as [s Hs].
    unfold key_of. rewrite Hs, bq_string_param_str. discriminate. }
  (* the second run *)
  assert (Hreach2 : reaches_loop e2 w1 entities
                      (log_event GetTable (log_event HttpGet w1)))
    by (apply (reaches_loop_again e2 w1 payload); auto; congruence).
  unfold run.
  rewrite (main_from_loop _ _ _ _ _ Hreach2).
  destruct (main_loop_all_known tt entities e2 rows Hfault Hall []
              (log_event GetTable (log_event HttpGet w1)) Erows)
    as (tr & -> & Hro).
  rewrite main_notify_eq. cbn [fst snd table outbox trace log_event].
  repeat split.
  exists (HttpGet :: GetTable :: tr). split; [|exact Hro].
  rewrite <- !app_assoc. reflexivity.
Qed.

End Pipeline.

(* ================================================================== *)
(** ** The properties on concrete feeds                                *)
(* ================================================================== *)

Section Scenarios.
Import Host.

(** C6. A failure of the store leaves [main] as an exception, not as a
    result: with the existence query failing (call 2 of the run), and with
    the insert failing (call 3), [main] raises [GoogleCloudError] and
    returns no pair of a message and a status. *)
Theorem store_failure_escapes_main :
  run (store_failing_at 2 feed42) empty_table =
    (Raise GoogleCloudError,
     {| table := Some [];
        outbox := [];
        trace := [HttpGet; GetTable; QueryCount (Some "42")] |}) /\
  fst (run (store_failing_at 3 feed42) empty_table) = Raise GoogleCloudError /\
  table (snd (run (store_failing_at 3 feed42) empty_table)) = Some [].
Proof. repeat split. Qed.

(** C7. A failure of the mail session that is no [SMTPException] leaves
    [main] as an exception, not as a result: with the loop completed on the
    batch of alert 42 and the session raising [OSError] (a refused
    connection, a time-out), [main] raises [OSError] after its one call to
    the transport and returns no pair of a message and a status.  The row of
    the alert stays in the table, as it does when the session raises
    [SMTPException] and [main] returns the error result. *)
Theorem send_failure_escapes_main :
  fst (run (Samples.smtp_raising OSError feed42) empty_table) = Raise OSError /\
  Client.rows_of (snd (run (Samples.smtp_raising OSError feed42) empty_table))
    = [bigquery_interface.row_of alert42 "2023-11-15T09:14:00"] /\
  mail_calls (trace (snd (run (Samples.smtp_raising OSError feed42) empty_table)))
    = [SmtpSend (render [alert42])] /\
  fst (run (mail_failing feed42) empty_table)
    = Ok ("Error: Unable to send email.", 500) /\
  Client.rows_of (snd (run (mail_failing feed42) empty_table))
    = [bigquery_interface.row_of alert42 "2023-11-15T09:14:00"].
Proof. vm_compute. repeat split. Qed.

(** Against C1 as stated: from an empty store, two runs on a feed whose one
    entity has the id [null] leave two rows with the same [alert_id], and
    the same in every other column. *)
Lemma null_id_is_stored_twice :
  NoDup (id_column (Client.rows_of empty_world)) /\
  Client.rows_of
    (runs [healthy Samples.feed_null; healthy Samples.feed_null] empty_world)
    = [bigquery_interface.row_of Samples.alert_null "2023-11-15T09:14:00";
       bigquery_interface.row_of Samples.alert_null "2023-11-15T09:14:00"] /\
  id_column
    (Client.rows_of
       (runs [healthy Samples.feed_null; healthy Samples.feed_null] empty_world))
    = [None; None] /\
  ~ NoDup
      (id_column
         (Client.rows_of
            (runs [healthy Samples.feed_null; healthy Samples.feed_null]
                  empty_world))).
Proof.
  split; [constructor|]. split; [vm_compute; reflexivity|].
  split; [vm_compute; reflexivity|].
  intros Hnd.
  assert (Hcol : id_column
            (Client.rows_of
               (runs [healthy Samples.feed_null; healthy Samples.feed_null]
                     empty_world)) = [None; None])
    by (vm_compute; reflexivity).
  rewrite Hcol in Hnd. inversion Hnd as [|? ? Hnotin _]; subst.
  apply Hnotin. left. reflexivity.
Qed.

(** Against C2 as stated: on a feed whose one entity has the id [null], the
    first run completes with one row and one mail, and the second run on
    the same payload, in the world the first one left, inserts a second row
    and sends a second mail. *)
Lemma null_id_feed_is_mailed_again :
  let w1 := snd (run (healthy Samples.feed_null) empty_world) in
  let w2 := snd (run (healthy Samples.feed_null) w1) in
  fst (run (healthy Samples.feed_null) empty_world) = Ok ("Complete.", 200) /\
  fst (run (healthy Samples.feed_null) w1) = Ok ("Complete.", 200) /\
  Client.rows_of w1
    = [bigquery_interface.row_of Samples.alert_null "2023-11-15T09:14:00"] /\
  Client.rows_of w2
    = [bigquery_interface.row_of Samples.alert_null "2023-11-15T09:14:00";
       bigquery_interface.row_of Samples.alert_null "2023-11-15T09:14:00"] /\
  outbox w1 = [render [Samples.alert_null]] /\
  outbox w2 = [render [Samples.alert_null]; render [Samples.alert_null]] /\
  mail_calls (trace w2)
    = [SmtpSend (render [Samples.alert_null]); SmtpSend (render [Samples.alert_null])].
Proof. vm_compute. repeat split. Qed.

(** Against C10 as stated: an alert whose id is [null] is persisted by a
    run that fails to send its mail, and the next run has it in its batch
    and mails it. *)
Lemma null_id_alert_is_mailed_by_the_next_run :
  let w1 := snd (run (mail_failing Samples.feed_null) empty_world) in
  fst (run (mail_failing Samples.feed_null) empty_world)
    = Ok ("Error: Unable to send email.", 500) /\
  Client.rows_of w1
    = [bigquery_interface.row_of Samples.alert_null "2023-11-15T09:14:00"] /\
  outbox w1 = [] /\
  batch_of_run (healthy Samples.feed_null) w1 = [Samples.alert_null] /\
  fst (run (healthy Samples.feed_null) w1) = Ok ("Complete.", 200) /\
  outbox (snd (run (healthy Samples.feed_null) w1)) = [render [Samples.alert_null]].
Proof. vm_compute. repeat split. Qed.

(** The scenarios of the specification. *)
Example relevance_direction_0 :
  impacted_loop [informed "IWLR-191" 0] false = Ok true.
Proof. reflexivity. Qed.

Example relevance_direction_2 :
  impacted_loop [informed "IWLR-191" 2] false = Ok false.
Proof. reflexivity. Qed.

Example relevance_empty : impacted_loop [] false = Ok false.
Proof. reflexivity. Qed.

Example relevance_boolean_direction :
  impacted_loop [JObj [("routeId", JStr "IWLR-191"); ("directionId", JBool true)]] false
  = Ok true.
Proof. reflexivity. Qed.

Example canonicalize_entity42 : process_response_alert entity42 = Some alert42.
Proof. vm_compute. reflexivity. Qed.

Example canonicalize_without_periods :
  option_map (fun a => (formatted_start_date a, formatted_end_date a))
             (process_response_alert entity43) = Some ("NULL", "NULL").
Proof. vm_compute. reflexivity. Qed.

Example canonicalize_without_id :
  process_response_alert (JObj [("alert", JObj [])]) = None.
Proof. reflexivity. Qed.

Example end_to_end_first_run :
  let r := run (healthy feed42) empty_world in
  fst r = Ok ("Complete.", 200) /\
  option_map (map Schema.alert_id) (table (snd r)) = Some [Some "42"] /\
  outbox (snd r) = [render [alert42]].
Proof. vm_compute. repeat split. Qed.

Example end_to_end_null_id_is_inserted_again :
  let feed := feed_of [JObj (("id", JNull) :: match entity42 with
                                              | JObj (_ :: rest) => rest
                                              | _ => []
                                              end)] in
  option_map (map Schema.alert_id)
             (table (runs [healthy feed; healthy feed] empty_world))
  = Some [None; None].
Proof. vm_compute. reflexivity. Qed.

End Scenarios.

Section Witnesses.
Import Host.

Lemma relevance_filter_correct_witness :
  exists l1_line_impacted,
    impacted_loop [informed "IWLR-191" 2; informed "L2" 0; informed "IWLR-191" 0] false
      = Ok l1_line_impacted /\
    (l1_line_impacted = true <->
     Exists on_route_of_interest
       [informed "IWLR-191" 2; informed "L2" 0; informed "IWLR-191" 0]).
Proof.
  apply relevance_filter_correct.
  apply Forall_cons; [|apply Forall_cons; [|apply Forall_cons; [|apply Forall_nil]]];
    (do 2 eexists; split; reflexivity).
Defined.

Lemma canonicalize_failure_condition_witness :
  process_response_alert (JObj [("alert", JObj [])]) = None.
Proof.
  apply (proj2 (proj1 (canonicalize_failure_condition (JObj [("alert", JObj [])])))).
  left. simpl. exact I.
Defined.

Lemma store_ids_stay_unique_witness :
  NoDup (id_column
           (Client.rows_of
              (runs [healthy feed42; mail_failing feed_with_bad;
                     healthy Samples.feed_three; healthy feed42]
                    stored_world))) /\
  pairwise_distinct_ids
    (Client.rows_of
       (runs [healthy feed42; mail_failing feed_with_bad;
              healthy Samples.feed_three; healthy feed42]
             stored_world)) /\
  extends (Client.rows_of stored_world)
    (Client.rows_of
       (runs [healthy feed42; mail_failing feed_with_bad;
              healthy Samples.feed_three; healthy feed42]
             stored_world)).
Proof.
  destruct (store_ids_stay_unique
              [healthy feed42; mail_failing feed_with_bad;
               healthy Samples.feed_three; healthy feed42] stored_world)
    as (Hcol & Hpair & Hext).
  split; [|split; [|exact Hext]].
  - apply Hcol.
    + repeat apply Forall_cons; try apply Forall_nil;
        unfold feed_ids_are_strings; cbn [http_response healthy mail_failing];
        repeat apply Forall_cons; try apply Forall_nil;
        intros v Hv; simpl in Hv; try discriminate;
        injection Hv as <-; eexists; reflexivity.
    + simpl. repeat constructor. intros [].
  - apply Hpair. simpl. repeat constructor.
Defined.

Lemma fetch_failure_stops_run_witness :
  fst (run feed_down stored_world) = Ok ("Error: The API response is invalid", 500) /\
  table (snd (run feed_down stored_world)) = table stored_world /\
  outbox (snd (run feed_down stored_world)) = outbox stored_world /\
  trace (snd (run feed_down stored_world)) = (trace stored_world ++ [HttpGet])%list.
Proof.
  apply fetch_failure_stops_run. reflexivity.
Defined.

Lemma malformed_entity_aborts_run_witness :
  run (healthy feed_with_bad) empty_table =
    (Ok ("Error: Unable to process result " ++ py_str (JInt 5), 500),
     snd (main_loop tt [entity42] [] (healthy feed_with_bad) (at_loop empty_table))) /\
  outbox (snd (main_loop tt [entity42] [] (healthy feed_with_bad) (at_loop empty_table)))
    = outbox empty_table /\
  mail_calls
    (trace (snd (main_loop tt [entity42] [] (healthy feed_with_bad) (at_loop empty_table))))
    = mail_calls (trace empty_table).
Proof.
  apply (malformed_entity_aborts_run
           (healthy feed_with_bad) empty_table [entity42] (JInt 5) [entity43]
           (at_loop empty_table) _ [alert42]).
  - exists feed_with_bad. split; [reflexivity|]. split; reflexivity.
  - vm_compute. reflexivity.
  - reflexivity.
Defined.

Lemma notification_batching_witness :
  (subseq [alert42; Samples.alert44]
          (canonical [entity42; Samples.entity_l2; Samples.entity44]) /\
   mail_calls (trace (snd (run (healthy Samples.feed_three) empty_table))) =
     [SmtpSend (alert_block alert42 ++ "===" ++ String newline ""
                ++ alert_block Samples.alert44)] /\
   fst (run (healthy Samples.feed_three) empty_table) = Ok ("Complete.", 200) /\
   outbox (snd (run (healthy Samples.feed_three) empty_table))
     = [render [alert42; Samples.alert44]] /\
   render [alert42; Samples.alert44] =
     render [alert42] ++ "===" ++ String newline "" ++ render [Samples.alert44]) /\
  (run (healthy Samples.feed_l2) stored_world
     = (Ok ("Complete.", 200), at_loop stored_world) /\
   mail_calls (trace (at_loop stored_world)) = mail_calls (trace stored_world)).
Proof.
  split.
  - destruct (notification_batching
                (healthy Samples.feed_three) empty_table
                [entity42; Samples.entity_l2; Samples.entity44]
                (at_loop empty_table)
                (snd (main_loop tt [entity42; Samples.entity_l2; Samples.entity44] []
                        (healthy Samples.feed_three) (at_loop empty_table)))
                [alert42; Samples.alert44])
      as (Hsub & _ & Hsome & Horder).
    + exists Samples.feed_three. split; [reflexivity|]. split; reflexivity.
    + vm_compute. reflexivity.
    + assert (Hne : [alert42; Samples.alert44] <> []) by discriminate.
      destruct (Hsome Hne) as (Hcalls & Hsent).
      destruct (Hsent eq_refl) as (Hok & Hout).
      split; [exact Hsub|]. split; [exact Hcalls|]. split; [exact Hok|].
      split; [exact Hout|].
      apply (Horder [alert42] [Samples.alert44]); [reflexivity | discriminate | discriminate].
  - destruct (notification_batching
                (healthy Samples.feed_l2) stored_world [Samples.entity_l2]
                (at_loop stored_world) (at_loop stored_world) [])
      as (_ & Hnone & _).
    + exists Samples.feed_l2. split; [reflexivity|]. split; reflexivity.
    + vm_compute. reflexivity.
    + exact (Hnone eq_refl).
Defined.

Lemma lost_notification_is_never_sent_witness :
  let w' := runs [healthy feed42] (snd (run (mail_failing feed42) empty_table)) in
  (In (bigquery_interface.row_of alert42 "2023-11-15T09:14:00") (Client.rows_of w') /\
   Forall (fun b => key_of b <> key_of alert42)
          (batch_of_run (healthy Samples.feed_three) w') /\
   ~ In alert42 (batch_of_run (healthy Samples.feed_three) w') /\
   mail_calls (trace (snd (run (healthy Samples.feed_three) w'))) =
     (mail_calls (trace w') ++
      map SmtpSend (mail_of_batch (batch_of_run (healthy Samples.feed_three) w')))%list /\
   (outbox (snd (run (healthy Samples.feed_three) w')) = outbox w' \/
    outbox (snd (run (healthy Samples.feed_three) w')) =
      (outbox w' ++ mail_of_batch (batch_of_run (healthy Samples.feed_three) w'))%list)) /\
  batch_of_run (healthy Samples.feed_three) w' = [Samples.alert44] /\
  outbox (snd (run (healthy Samples.feed_three) w')) = [render [Samples.alert44]].
Proof.
  cbv zeta. split; [|split; vm_compute; reflexivity].
  apply (lost_notification_is_never_sent
           (mail_failing feed42) empty_table alert42 "42" "2023-11-15T09:14:00"
           [healthy feed42] (healthy Samples.feed_three)).
  - reflexivity.
  - vm_compute. discriminate.
  - vm_compute. left. reflexivity.
Defined.

Lemma second_run_is_idempotent_witness :
  fst (run (healthy feed42) (snd (run (mail_failing feed42) empty_world)))
    = Ok ("Complete.", 200) /\
  table (snd (run (healthy feed42) (snd (run (mail_failing feed42) empty_world))))
    = table (snd (run (mail_failing feed42) empty_world)) /\
  outbox (snd (run (healthy feed42) (snd (run (mail_failing feed42) empty_world))))
    = outbox (snd (run (mail_failing feed42) empty_world)) /\
  exists tr,
    trace (snd (run (healthy feed42) (snd (run (mail_failing feed42) empty_world))))
      = (trace (snd (run (mail_failing feed42) empty_world)) ++ tr)%list /\
    forallb read_only tr = true.
Proof.
  apply (second_run_is_idempotent feed42).
  - reflexivity.
  - reflexivity.
  - apply Forall_cons; [|apply Forall_nil].
    intros v Hv. simpl in Hv. injection Hv as <-. eexists. reflexivity.
  - intros n. reflexivity.
  - right. vm_compute. reflexivity.
Defined.

End Witnesses.

(* ================================================================== *)
(** ** More on the canonicalizer                                       *)
(* ================================================================== *)


Lemma remove_newlines_filter (s : string) :
  list_ascii_of_string (remove_newlines s) =
  filter (fun ch => negb (Ascii.eqb ch newline)) (list_ascii_of_string s).
Proof.
  induction s as [|ch s IH]; simpl; [reflexivity|].
  destruct (Ascii.eqb ch newline); simpl; [exact IH | rewrite IH; reflexivity].
Qed.

Lemma line_matches_raises_whatever_direction (line : value) (d d' : Z) :
  raises (line_matches line d) -> raises (line_matches line d').
Proof.
  unfold line_matches.
  destruct (getitem line "routeId") as [r|]; simpl; [|auto].
  destruct (eq_str r "IWLR-191"); simpl; [|auto].
  destruct (getitem line "directionId"); simpl; auto.
Qed.

(** What the loop over the informed entities computes: an exception when
    some line raises, and otherwise whether the flag was set or some line
    is on the route in direction 1 or 0. *)
Lemma impacted_loop_outcome (lines : list value) :
  forall l1,
  match impacted_loop lines l1 with
  | Ok b =>
      Forall (fun line => ~ raises (line_matches line 1)) lines /\
      (b = true <->
       l1 = true \/
       Exists (fun line => line_matches line 1 = Ok true \/
                           line_matches line 0 = Ok true) lines)
  | Raise _ => Exists (fun line => raises (line_matches line 1)) lines
  end.
Proof.
  induction lines as [|line rest IH]; intros l1; simpl.
  - split; [constructor|]. split; [auto|]. intros [?|Hex]; [assumption|inversion Hex].
  - destruct (line_matches line 1) as [[|]|ex] eqn:E1; simpl.
    + specialize (IH true). destruct (impacted_loop rest true) as [b|].
      * destruct IH as [Hall Hiff]. split.
        -- constructor; [rewrite E1; simpl; tauto | exact Hall].
        -- split; [intros _; right; left; auto|]. intros _. apply Hiff. auto.
      * right. exact IH.
    + destruct (line_matches line 0) as [[|]|ex] eqn:E0; simpl.
      * specialize (IH true). destruct (impacted_loop rest true) as [b|].
        -- destruct IH as [Hall Hiff]. split.
           ++ constructor; [rewrite E1; simpl; tauto | exact Hall].
           ++ split; [intros _; right; left; auto|]. intros _. apply Hiff. auto.
        -- right. exact IH.
      * specialize (IH l1). destruct (impacted_loop rest l1) as [b|].
        -- destruct IH as [Hall Hiff]. split.
           ++ constructor; [rewrite E1; simpl; tauto | exact Hall].
           ++ rewrite Hiff. split.
              ** intros [?|?]; [left|right; right]; assumption.
              ** intros [?|Hex]; [left; assumption|].
                 inversion Hex as [? ? [H1|H0]|]; subst;
                   [congruence | congruence | right; assumption].
        -- right. exact IH.
      * left. apply (line_matches_raises_whatever_direction line 0 1).
        rewrite E0. exact I.
    + left. rewrite E1. exact I.
Qed.

(** X1. The relevance flag does not depend on the order of the informed
    entities: a reordered list gives the same flag, and raises if and only
    if the original one does. *)
Theorem relevance_ignores_order (lines lines' : list value) :
  Permutation lines lines' ->
  same_outcome (impacted_loop lines false) (impacted_loop lines' false).
Proof.
  intros Hperm.
  pose proof (impacted_loop_outcome lines false) as H1.
  pose proof (impacted_loop_outcome lines' false) as H2.
  assert (Hclash : forall l l', Permutation l l' ->
            Forall (fun line => ~ raises (line_matches line 1)) l ->
            Exists (fun line => raises (line_matches line 1)) l' -> False).
  { intros l l' Hp Hall Hex. rewrite Forall_forall in Hall.
    apply Exists_exists in Hex as (line & Hin & Hr).
    apply (Hall line); [|exact Hr].
    apply (Permutation_in _ (Permutation_sym Hp)). exact Hin. }
  unfold same_outcome.
  destruct (impacted_loop lines false) as [b|], (impacted_loop lines' false) as [b'|].
  - destruct H1 as [_ Hb], H2 as [_ Hb'].
    assert (Hsame : b = true <-> b' = true).
    { rewrite Hb, Hb'. split; intros [?|Hex]; try discriminate; right;
        apply Exists_exists in Hex as (line & Hin & Hl); apply Exists_exists;
        exists line; (split; [|exact Hl]).
      - apply (Permutation_in _ Hperm). exact Hin.
      - apply (Permutation_in _ (Permutation_sym Hperm)). exact Hin. }
    destruct b, b'; try reflexivity; exfalso;
      [assert (false = true) by (apply Hsame; reflexivity)
      |assert (false = true) by (apply Hsame; reflexivity)]; discriminate.
  - destruct H1 as [Hall _]. exact (Hclash _ _ Hperm Hall H2).
  - destruct H2 as [Hall _]. exact (Hclash _ _ (Permutation_sym Hperm) Hall H1).
  - exact I.
Qed.

Lemma seq_index_first {A} (x : A) (l : list A) : seq_index (x :: l) 0 = Some x.
Proof.
  unfold seq_index. cbv zeta. change (0 <? 0) with false. cbv iota.
  replace ((0 <=? 0) && (0 <? Z.of_nat (List.length (x :: l)))) with true.
  - reflexivity.
  - symmetry. apply andb_true_iff. split; [reflexivity|].
    apply Z.ltb_lt. simpl List.length. lia.
Qed.

Lemma seq_index_last {A} (l : list A) (x : A) : seq_index (l ++ [x]) (-1) = Some x.
Proof.
  unfold seq_index. cbv zeta. change (-1 <? 0) with true. cbv iota.
  rewrite last_length.
  replace (-1 + Z.of_nat (S (List.length l))) with (Z.of_nat (List.length l)) by lia.
  replace ((0 <=? Z.of_nat (List.length l))
           && (Z.of_nat (List.length l) <? Z.of_nat (S (List.length l)))) with true.
  - rewrite Nat2Z.id, nth_error_app2 by lia. rewrite Nat.sub_diag. reflexivity.
  - symmetry. apply andb_true_iff. split; [apply Z.leb_le | apply Z.ltb_lt]; lia.
Qed.

Lemma seq_index_minus_one {A} (x : A) (l : list A) :
  seq_index (x :: l) (-1) = Some (last l x).
Proof.
  destruct l as [|y l]; [reflexivity|].
  rewrite (app_removelast_last x (l := y :: l)) at 1 by discriminate.
  rewrite app_comm_cons. apply seq_index_last.
Qed.

Section CanonicalizerExtras.
Context {RT : Runtime}.

Lemma process_response_alert_dates (entity : value) (a : processed_alert) :
  process_response_alert entity = Some a ->
  formatted_start_date a =
    try_except (period_date entity 0 "start") (fun _ => "NULL") /\
  formatted_end_date a =
    try_except (period_date entity (-1) "end") (fun _ => "NULL").
Proof.
  intros Hpa. apply process_response_alert_some in Hpa.
  rewrite process_response_alert_body_stages in Hpa.
  destruct (getitem entity "id"); simpl in Hpa; [|discriminate].
  destruct (translation_text entity "url"); simpl in Hpa; [|discriminate].
  destruct (translation_text entity "headerText"); simpl in Hpa; [|discriminate].
  destruct (description_text entity); simpl in Hpa; [|discriminate].
  destruct (informed_flag entity); simpl in Hpa; [|discriminate].
  injection Hpa as <-. split; reflexivity.
Qed.

(** X2. The description of a canonical alert holds no line feed: it is the
    description text of the feed with its line feeds taken out and every
    other character kept in place. *)
Theorem description_has_no_newline (entity : value) (a : processed_alert) :
  process_response_alert entity = Some a ->
  no_newline (description_html a) /\
  exists text,
    translation_text entity "descriptionText" = Ok (JStr text) /\
    list_ascii_of_string (description_html a) =
    filter (fun ch => negb (Ascii.eqb ch newline)) (list_ascii_of_string text).
Proof.
  intros Hpa. apply process_response_alert_some in Hpa.
  rewrite process_response_alert_body_stages in Hpa.
  destruct (getitem entity "id"); simpl in Hpa; [|discriminate].
  destruct (translation_text entity "url"); simpl in Hpa; [|discriminate].
  destruct (translation_text entity "headerText"); simpl in Hpa; [|discriminate].
  unfold description_text in Hpa.
  destruct (translation_text entity "descriptionText") as [d|]; simpl in Hpa;
    [|discriminate].
  destruct d as [| | | |text| |]; simpl in Hpa; try discriminate.
  destruct (informed_flag entity); simpl in Hpa; [|discriminate].
  injection Hpa as <-. simpl. split.
  - unfold no_newline. rewrite remove_newlines_filter. intros Hin.
    apply filter_In in Hin as [_ Hne].
    rewrite Ascii.eqb_refl in Hne. discriminate.
  - exists text. split; [reflexivity | apply remove_newlines_filter].
Qed.

(** X3. The start date is that of the first active period and the end date that
    of the last one (the same period when there is only one), each ["NULL"]
    when its field is missing or does not parse; the periods in between are
    not read. *)
Theorem dates_come_from_first_and_last_period (entity alert first : value)
    (others : list value) (a : processed_alert) :
  process_response_alert entity = Some a ->
  getitem entity "alert" = Ok alert ->
  getitem alert "activePeriod" = Ok (JArr (first :: others)) ->
  formatted_start_date a =
    try_except (t <- getitem first "start" ;; format_epoch t)%result
               (fun _ => "NULL") /\
  formatted_end_date a =
    try_except (t <- getitem (last others first) "end" ;; format_epoch t)%result
               (fun _ => "NULL").
Proof.
  intros Hpa Halert Hperiods.
  destruct (process_response_alert_dates entity a Hpa) as [-> ->].
  unfold period_date. rewrite Halert. cbn [Py.bind]. rewrite Hperiods.
  cbn [Py.bind]. unfold getindex.
  rewrite seq_index_first, seq_index_minus_one. split; reflexivity.
Qed.

End CanonicalizerExtras.

(* ================================================================== *)
(** ** More on the store interface                                     *)
(* ================================================================== *)

Section StoreExtras.
Context {RT : Runtime}.



(** X5. Insert, then look up: after [insert_values_into_table] has written an
    alert whose id reaches BigQuery as a string, [check_alert_id_is_unique]
    finds it; the table is the old one with the row of the alert appended,
    stamped with the time of the service. *)
Theorem inserted_alert_is_found c (a : processed_alert) (e : env) (w : world)
    (rows : list Schema.row) (s : string) :
  table w = Some rows ->
  key_of a = Some s ->
  bq_fault e (List.length (trace w)) = false ->
  bq_fault e (S (List.length (trace w))) = false ->
  exists w',
    (bigquery_interface.insert_values_into_table c a ;;;
     bigquery_interface.check_alert_id_is_unique c a)%io e w = (Ok true, w') /\
    table w' =
      Some (rows ++ [bigquery_interface.row_of a
                       (current_datetime e (List.length (trace w)))])%list /\
    outbox w' = outbox w.
Proof.
  intros Ht Hk Hf0 Hf1. unfold mbind.
  rewrite insert_values_into_table_eq. cbv zeta. rewrite Hf0, Ht.
  rewrite check_alert_id_is_unique_eq. cbv zeta.
  cbn [trace log_event set_table table].
  rewrite length_app. simpl List.length. rewrite Nat.add_1_r, Hf1.
  eexists. split.
  - f_equal. f_equal. rewrite known_app. apply orb_true_iff. right.
    unfold known. cbn [existsb bigquery_interface.row_of Schema.alert_id].
    unfold key_of in Hk |- *. rewrite Hk, sql_eq_refl. reflexivity.
  - split; reflexivity.
Qed.

(** X6. Provisioning: when [main] gets past its set-up, the table exists and
    holds exactly the rows it held before (none if it did not exist); it is
    created only when [check_table_exists] found none, so an existing table
    is never replaced; and the entities to loop over are those of the
    payload. *)
Theorem setup_provisions_table_once (payload : value) (e : env) (w w0 : world)
    c (entities : list value) :
  main_setup payload e w = (Ok (c, entities), w0) ->
  table w0 = Some (Client.rows_of w) /\
  outbox w0 = outbox w /\
  calls_between w w0
    (match table w with
     | Some _ => [GetTable]
     | None => [GetTable; CreateTable]
     end) /\
  entities = feed_entities payload.
Proof.
  intros Hsetup. rewrite main_setup_eq in Hsetup.
  unfold feed_entities, calls_between, Client.rows_of.
  destruct (getitem payload "entity") as [entity|]; [|discriminate].
  destruct (len entity); [|discriminate]. cbv zeta in Hsetup.
  destruct (bq_fault e _); [discriminate|].
  simpl table in Hsetup. cbn [Py.bind].
  destruct (table w) as [rows|] eqn:Et.
  - destruct (iter entity) as [es|]; [|discriminate].
    injection Hsetup as _ <- <-. simpl. rewrite Et. repeat split.
  - destruct (bq_fault e _); [discriminate|].
    destruct (iter entity) as [es|]; [|discriminate].
    injection Hsetup as _ <- <-. simpl. rewrite <- app_assoc. repeat split.
Qed.

End StoreExtras.

(* ================================================================== *)
(** ** More on the orchestrator                                        *)
(* ================================================================== *)

Section LoopExtras.
Context {RT : Runtime}.

Lemma main_loop_only_relevant_rows c (entities : list value) :
  forall (acc : list processed_alert) (e : env) (w : world) r (w' : world),
  main_loop c entities acc e w = (r, w') ->
  only_relevant_rows (Client.rows_of w) ->
  only_relevant_rows (Client.rows_of w').
Proof.
  induction entities as [|entity rest IH]; intros acc e w r w' Hrun Hrel.
  - injection Hrun as <- <-. exact Hrel.
  - loop_turn Hrun a rows; try (injection Hrun as <- <-; exact Hrel);
      try (eapply IH; [exact Hrun | exact Hrel]).
    eapply IH; [exact Hrun|].
    unfold Client.rows_of in Hrel |- *. simpl.
    match goal with Ht : table w = Some rows |- _ => rewrite Ht in Hrel end.
    apply Forall_app. split; [exact Hrel|]. repeat constructor. assumption.
Qed.

(** The rows a completed loop adds are, one for one and in order, the rows
    of the alerts it adds to the batch; and no two alerts of the batch have
    the same id. *)
Lemma main_loop_rows_match_batch c (entities : list value) :
  forall (acc : list processed_alert) (e : env) (w : world)
         (alerts : list processed_alert) (w' : world),
  main_loop c entities acc e w = (Ok (inr alerts), w') ->
  exists new added,
    alerts = (acc ++ new)%list /\
    Client.rows_of w' = (Client.rows_of w ++ added)%list /\
    Forall2 (fun a r => exists now, r = bigquery_interface.row_of a now) new added /\
    Forall (fun a => known (key_of a) (Client.rows_of w) = false) new /\
    ForallOrdPairs (fun a b => sql_eq (key_of a) (key_of b) = false) new.
Proof.
  induction entities as [|entity rest IH]; intros acc e w alerts w' Hrun.
  - injection Hrun as <- <-. exists [], [].
    rewrite !app_nil_r. repeat split; constructor.
  - loop_turn Hrun a rows; try discriminate.
    + apply IH in Hrun. exact Hrun.
    + apply IH in Hrun as (new & added & -> & Hrows & Hmatch & Hfresh & Hpair).
      unfold Client.rows_of in Hrows, Hfresh |- *. simpl in Hrows, Hfresh.
      match goal with Ht : table w = Some rows |- _ => rewrite Ht end.
      match type of Hrows with
      | _ = ((rows ++ [?r0]) ++ _)%list => set (row := r0) in *
      end.
      exists (a :: new), (row :: added). repeat split.
      * rewrite <- app_assoc. reflexivity.
      * rewrite Hrows, <- app_assoc. reflexivity.
      * constructor; [eexists; reflexivity | exact Hmatch].
      * constructor; [assumption|].
        eapply Forall_impl; [|exact Hfresh]. intros b Hb. cbv beta in Hb.
        rewrite known_app in Hb. apply orb_false_iff in Hb. tauto.
      * constructor; [|exact Hpair].
        eapply Forall_impl; [|exact Hfresh]. intros b Hb. cbv beta in Hb.
        rewrite known_app in Hb. apply orb_false_iff in Hb as [_ Hb].
        unfold known in Hb. simpl in Hb. apply orb_false_iff in Hb as [Hb _].
        exact Hb.
    + apply IH in Hrun. exact Hrun.
Qed.

(** A loop over entities that all canonicalize to alerts off the route of
    interest asks the store nothing and changes nothing. *)
Lemma main_loop_irrelevant c (entities : list value) :
  Forall (fun entity =>
            exists a, process_response_alert entity = Some a /\
                      l1_line_impacted a = false) entities ->
  forall acc e w, main_loop c entities acc e w = (Ok (inr acc), w).
Proof.
  induction 1 as [|entity rest (a & Hpa & Hirr) _ IH]; intros acc e w.
  - reflexivity.
  - rewrite main_loop_cons, Hpa, Hirr. apply IH.
Qed.

Lemma main_setup_calls (payload : value) (e : env) (w : world) r (w0 : world) :
  main_setup payload e w = (r, w0) ->
  exists calls,
    calls_between w w0 calls /\ forallb store_call calls = true.
Proof.
  intros Hsetup. rewrite main_setup_eq in Hsetup. unfold calls_between.
  destruct (getitem payload "entity") as [entity|];
    [|injection Hsetup as _ <-; exists []; rewrite app_nil_r; auto].
  destruct (len entity);
    [|injection Hsetup as _ <-; exists []; rewrite app_nil_r; auto].
  cbv zeta in Hsetup.
  destruct (bq_fault e _);
    [injection Hsetup as _ <-; exists [GetTable]; auto|].
  simpl table in Hsetup.
  destruct (table w).
  - injection Hsetup as _ <-. exists [GetTable]. auto.
  - destruct (bq_fault e _); injection Hsetup as _ <-;
      exists [GetTable; CreateTable]; simpl; rewrite <- app_assoc; auto.
Qed.

End LoopExtras.

Section RunExtras.
Context {RT : Runtime}.

(** X7. Only relevant alerts are ever stored: over any sequence of runs, a
    table whose rows all have [l1_line_impacted] set keeps that property. *)
Theorem only_relevant_alerts_are_stored (es : list env) (w : world) :
  only_relevant_rows (Client.rows_of w) ->
  only_relevant_rows (Client.rows_of (runs es w)).
Proof.
  revert w. induction es as [|e es IH]; intros w Hrel; [exact Hrel|].
  rewrite runs_cons. apply IH. unfold run.
  destruct (main_reaches_loop_or_stops "Running locally." e w)
    as [(entities & w0 & Hreach) | (Hrows & _)].
  2:{ rewrite Hrows. exact Hrel. }
  rewrite (main_from_loop _ _ _ _ _ Hreach).
  apply reaches_loop_frame in Hreach as (Ht0 & _).
  assert (Hr0 : Client.rows_of w0 = Client.rows_of w)
    by (unfold Client.rows_of at 1; rewrite Ht0; reflexivity).
  destruct (main_loop tt entities [] e w0) as [r w1] eqn:Hloop.
  apply main_loop_only_relevant_rows in Hloop; [|rewrite Hr0; exact Hrel].
  destruct r as [[result|alerts]|ex]; cbn [snd]; auto.
  rewrite main_notify_eq.
  destruct alerts as [|a rest]; cbn [snd]; auto.
  destruct (smtp_error e) as [[]|]; cbn [snd]; exact Hloop.
Qed.

(** X8. Persisting and batching go together: when the loop of [main] runs to
    its end, the rows it has added to the table are exactly the rows of the
    alerts it hands to the mailer, one for one and in the same order. *)
Theorem batch_is_what_was_persisted c (entities : list value) (e : env)
    (w w' : world) (alerts : list processed_alert) :
  main_loop c entities [] e w = (Ok (inr alerts), w') ->
  exists added,
    Client.rows_of w' = (Client.rows_of w ++ added)%list /\
    Forall2 (fun a r => exists now, r = bigquery_interface.row_of a now)
            alerts added.
Proof.
  intros Hloop.
  apply main_loop_rows_match_batch in Hloop
    as (new & added & Halerts & Hrows & Hmatch & _).
  simpl in Halerts. subst new. exists added. auto.
Qed.

Lemma subseq_In {A : Type} (l l' : list A) (x : A) :
  subseq l l' -> In x l -> In x l'.
Proof.
  induction 1 as [|y l l' _ IH|y l l' _ IH]; simpl; intros Hin; auto.
  destruct Hin as [<-|Hin]; auto.
Qed.

(** X9. One mail never lists an id twice: on a feed whose entity ids are
    strings, the alerts that the loop of [main] hands to the mailer have
    pairwise different [alert_id] values, even when the feed repeats an
    entity. *)
Theorem batch_has_distinct_ids c (entities : list value) (e : env)
    (w w' : world) (alerts : list processed_alert) :
  ids_are_strings entities ->
  main_loop c entities [] e w = (Ok (inr alerts), w') ->
  NoDup (map alert_id alerts).
Proof.
  intros Hids Hloop.
  pose proof (main_loop_completed _ _ _ _ _ _ _ Hloop) as [(new & Hnew & Hsub & _) _].
  simpl in Hnew. subst new.
  apply main_loop_rows_match_batch in Hloop
    as (new & added & Halerts & _ & _ & _ & Hpair).
  simpl in Halerts. subst new.
  assert (Hstr : Forall (fun a => exists s, alert_id a = JStr s) alerts).
  { rewrite Forall_forall. intros a Hin.
    apply (subseq_In _ _ _ Hsub) in Hin. unfold canonical in Hin.
    apply in_flat_map in Hin as (entity & Hent & Ha).
    destruct (process_response_alert entity) as [a'|] eqn:Hpa; [|contradiction].
    destruct Ha as [<-|[]].
    unfold ids_are_strings in Hids. rewrite Forall_forall in Hids.
    exact (Hids entity Hent _ (process_response_alert_id _ _ Hpa)). }
  clear Hsub. revert Hstr.
  induction Hpair as [|a rest Ha _ IH]; intros Hstr; simpl;
    [constructor|].
  inversion Hstr as [|? ? [s Hs] Hstr']; subst.
  constructor; [|apply IH; exact Hstr'].
  intros Hin. apply in_map_iff in Hin as (b & Hb & Hinb).
  rewrite Forall_forall in Ha. specialize (Ha b Hinb).
  unfold key_of in Ha. rewrite Hb, Hs, bq_string_param_str, sql_eq_refl in Ha.
  discriminate.
Qed.

(** X10. A feed of alerts that are all off the route of interest (an empty feed
    included) leaves the store alone: once the run has reached its loop it
    makes no further call, whatever BigQuery and the mail server would
    answer, and returns [("Complete.", 200)]. *)
Theorem irrelevant_feed_leaves_store_alone (e : env) (w w0 : world)
    (entities : list value) :
  reaches_loop e w entities w0 ->
  Forall (fun entity =>
            exists a, process_response_alert entity = Some a /\
                      l1_line_impacted a = false) entities ->
  run e w = (Ok ("Complete.", 200), w0) /\
  table w0 = Some (Client.rows_of w) /\
  outbox w0 = outbox w.
Proof.
  intros Hreach Hirr. unfold run.
  rewrite (main_from_loop _ _ _ _ _ Hreach), (main_loop_irrelevant _ _ Hirr).
  rewrite main_notify_eq.
  apply reaches_loop_frame in Hreach as (Ht0 & Ho0 & _). auto.
Qed.

(** X11. The calls of a run come in a fixed order: first the HTTP request, then
    calls to the store only, and last at most one call to the mail
    transport. *)
Theorem run_calls_in_order (e : env) (w : world) :
  exists store mail,
    calls_between w (snd (run e w)) (HttpGet :: store ++ mail) /\
    forallb store_call store = true /\
    (mail = [] \/ exists body, mail = [SmtpSend body]).
Proof.
  unfold run, calls_between. rewrite main_eq, fetch_data_eq.
  assert (Hstop : forall w1 : world,
            trace w1 = (trace w ++ [HttpGet])%list ->
            exists store mail,
              trace w1 = (trace w ++ HttpGet :: store ++ mail)%list /\
              forallb store_call store = true /\
              (mail = [] \/ exists body, mail = [SmtpSend body])).
  { intros w1 Hw1. exists [], []. auto. }
  destruct (http_response e) as [payload|ex].
  2:{ destruct ex; apply Hstop; reflexivity. }
  destruct (is_None payload); [apply Hstop; reflexivity|].
  destruct (main_setup payload e (log_event HttpGet w)) as [[s|ex] w0] eqn:Hs.
  - apply main_setup_calls in Hs as (calls0 & Hc0 & Hs0).
    unfold calls_between in Hc0. simpl in Hc0.
    destruct (main_loop (fst s) (snd s) [] e w0) as [r w1] eqn:Hloop.
    apply main_loop_frame in Hloop as (_ & _ & _ & (calls1 & Hc1 & Hs1) & _).
    assert (Hw1 : trace w1 = (trace w ++ HttpGet :: (calls0 ++ calls1) ++ [])%list).
    { rewrite Hc1, Hc0, app_nil_r, <- !app_assoc. reflexivity. }
    assert (Hst : forallb store_call (calls0 ++ calls1) = true)
      by (rewrite forallb_app, Hs0, Hs1; reflexivity).
    destruct r as [[result|alerts]|ex];
      try solve [exists (calls0 ++ calls1)%list, (@nil event); cbn [snd]; auto].
    rewrite main_notify_eq.
    destruct alerts as [|a rest];
      [exists (calls0 ++ calls1)%list, (@nil event); cbn [snd]; auto|].
    exists (calls0 ++ calls1)%list, [SmtpSend (render (a :: rest))].
    split; [|split; [exact Hst | right; eexists; reflexivity]].
    cbv zeta.
    destruct (smtp_error e) as [[]|]; cbn [snd trace log_event deliver];
      rewrite Hc1, Hc0, <- !app_assoc; reflexivity.
  - apply main_setup_calls in Hs as (calls0 & Hc0 & Hs0).
    unfold calls_between in Hc0. simpl in Hc0.
    exists calls0, []. cbn [snd]. rewrite Hc0, app_nil_r, <- app_assoc. auto.
Qed.

(** The [return] inside the loop is that of the first entity that does not
    canonicalize. *)
Lemma main_loop_returns_first c (entities : list value) :
  forall (acc : list processed_alert) (e : env) (w : world) result (w' : world),
  main_loop c entities acc e w = (Ok (inl result), w') ->
  exists pre bad post,
    entities = (pre ++ bad :: post)%list /\
    Forall (fun entity => process_response_alert entity <> None) pre /\
    process_response_alert bad = None /\
    result = ("Error: Unable to process result " ++ py_str bad, 500).
Proof.
  induction entities as [|entity rest IH]; intros acc e w result w' Hrun.
  - discriminate.
  - loop_turn Hrun a rows; try discriminate;
      try (apply IH in Hrun as (pre & bad & post & -> & Hpre & Hbad & ->);
           exists (entity :: pre), bad, post;
           split; [reflexivity|]; split; [|auto];
           constructor; [congruence | exact Hpre]).
    injection Hrun as <- _. exists [], entity, rest. auto.
Qed.

(** The entities that the set-up hands to the loop are those of the
    payload. *)
Lemma main_setup_entities (payload : value) (e : env) (w : world) s (w0 : world) :
  main_setup payload e w = (Ok s, w0) ->
  feed_entities payload = snd s.
Proof.
  intros Hsetup. rewrite main_setup_eq in Hsetup. unfold feed_entities.
  destruct (getitem payload "entity") as [entity|]; [|discriminate].
  destruct (len entity); [|discriminate].
  cbv zeta in Hsetup. simpl.
  destruct (bq_fault e _); [discriminate|].
  destruct (table w).
  - destruct (iter entity); [|discriminate].
    injection Hsetup as <- _. reflexivity.
  - destruct (bq_fault e _); [discriminate|].
    destruct (iter entity); [|discriminate].
    injection Hsetup as <- _. reflexivity.
Qed.

(** X12. When [main] returns, its result is one of four: success with status
    200, or with status 500 the message of the fetch, of the mail, or of
    the first entity of the feed that does not canonicalize. *)
Theorem main_results (e : env) (w : world) (message : string) (status : Z) :
  fst (run e w) = Ok (message, status) ->
  (message = "Complete." /\ status = 200) \/
  (status = 500 /\
   (message = "Error: The API response is invalid" \/
    message = "Error: Unable to send email." \/
    exists payload pre bad post,
      http_response e = Ok payload /\
      feed_entities payload = (pre ++ bad :: post)%list /\
      Forall (fun entity => process_response_alert entity <> None) pre /\
      process_response_alert bad = None /\
      message = "Error: Unable to process result " ++ py_str bad)).
Proof.
  unfold run. rewrite main_eq, fetch_data_eq. intros Hres.
  destruct (http_response e) as [payload|ex].
  2:{ destruct ex; simpl in Hres; try discriminate.
      injection Hres as <- <-. auto. }
  destruct (is_None payload); [injection Hres as <- <-; auto|].
  destruct (main_setup payload e (log_event HttpGet w)) as [[s|ex] w0] eqn:Hsetup;
    [|discriminate].
  apply main_setup_entities in Hsetup.
  destruct (main_loop (fst s) (snd s) [] e w0) as [[[result|alerts]|ex] w1] eqn:Hloop;
    [| |discriminate].
  - apply main_loop_returns_first in Hloop
      as (pre & bad & post & Hfeed & Hpre & Hbad & ->).
    injection Hres as <- <-. right. split; [reflexivity|].
    right. right. exists payload, pre, bad, post.
    rewrite Hsetup. auto.
  - rewrite main_notify_eq in Hres.
    destruct alerts; [injection Hres as <- <-; auto|].
    cbv zeta in Hres.
    destruct (smtp_error e) as [[]|]; simpl in Hres; try discriminate;
      injection Hres as <- <-; auto.
Qed.

(** X13. Of the exceptions of the HTTP request only [RequestException] is turned
    into "no payload": any other one leaves [fetch_data] and [main] as it
    is, before any call to the store or the mail transport. *)
Theorem fetch_exception_escapes (e : env) (w : world) (ex : exn) :
  http_response e = Raise ex ->
  ex <> RequestException ->
  fetch_data e w = (Raise ex, log_event HttpGet w) /\
  run e w = (Raise ex, log_event HttpGet w).
Proof.
  intros Hresp Hne. unfold run. rewrite main_eq, fetch_data_eq, Hresp.
  destruct ex; try congruence; auto.
Qed.

(** X14. A payload without a sized ["entity"] member (no such key, or the
    payload is no object, or the member is a number) makes [main] raise
    the [KeyError] or [TypeError] of the lookup, before any call to the
    store or the mail transport. *)
Theorem payload_without_entities_raises (e : env) (w : world)
    (payload : value) (ex : exn) :
  http_response e = Ok payload ->
  is_None payload = false ->
  (entity <- getitem payload "entity" ;; len entity)%result = Raise ex ->
  run e w = (Raise ex, log_event HttpGet w).
Proof.
  intros Hresp Hnull Hent. unfold run.
  rewrite main_eq, fetch_data_eq, Hresp, Hnull, main_setup_eq.
  destruct (getitem payload "entity") as [entity|]; simpl in Hent.
  - rewrite Hent. reflexivity.
  - injection Hent as ->. reflexivity.
Qed.

(** X15. [send_email] catches [SMTPException] only: another exception of the
    SMTP session (a refused connection, a time-out) leaves [main] as it is,
    after the rows of the batch have been written; the table is the one
    the loop left and nothing is delivered. *)
Theorem transport_error_escapes (e : env) (w : world)
    (entities : list value) (w0 w1 : world) (alerts : list processed_alert)
    (ex : exn) :
  reaches_loop e w entities w0 ->
  main_loop tt entities [] e w0 = (Ok (inr alerts), w1) ->
  alerts <> [] ->
  smtp_error e = Some ex ->
  ex <> SMTPException ->
  run e w = (Raise ex, log_event (SmtpSend (render alerts)) w1).
Proof.
  intros Hreach Hloop Hne Hsmtp Hex. unfold run.
  rewrite (main_from_loop _ _ _ _ _ Hreach), Hloop, main_notify_eq, Hsmtp.
  destruct alerts as [|a rest]; [congruence|].
  destruct ex; try congruence; reflexivity.
Qed.

End RunExtras.

(* ================================================================== *)
(** ** The timetable check                                             *)
(* ================================================================== *)

Module TimetableFacts.
Import lightrail_timetable_alert.

Lemma prefix_iff (needle haystack : string) :
  String.prefix needle haystack = true <-> exists after, haystack = needle ++ after.
Proof.
  revert needle. induction haystack as [|ch' haystack IH]; intros needle;
    destruct needle as [|ch needle]; simpl.
  - split; [intros _; exists ""; reflexivity | reflexivity].
  - split; [discriminate | intros [after Heq]; discriminate].
  - split; [intros _; eexists; reflexivity | reflexivity].
  - destruct (ascii_dec ch ch') as [<-|Hne].
    + rewrite IH. split; intros [after Heq]; exists after; congruence.
    + split; [discriminate | intros [after Heq]; congruence].
Qed.

(** [in] on two strings is true exactly when the needle occurs somewhere in
    the haystack. *)
Lemma is_substring_iff (needle haystack : string) :
  is_substring needle haystack = true <->
  exists before after, haystack = before ++ needle ++ after.
Proof.
  induction haystack as [|ch haystack IH]; cbn [is_substring].
  - rewrite orb_false_r, prefix_iff. split.
    + intros [after Heq]. exists "", after. exact Heq.
    + intros (before & after & Heq). destruct before; [eauto|discriminate].
  - rewrite orb_true_iff, prefix_iff, IH. split.
    + intros [[after Heq] | (before & after & Heq)].
      * exists "", after. exact Heq.
      * exists (String ch before), after. simpl. congruence.
    + intros (before & after & Heq). destruct before as [|ch' before].
      * left. exists after. exact Heq.
      * right. exists before, after. simpl in Heq. congruence.
Qed.

Lemma find_target_miss (target : string) (x : value) (rest : list value) :
  departs_at_another_time target x ->
  find_target target (x :: rest) = find_target target rest.
Proof.
  intros (planned & Hget & Hno). simpl. rewrite Hget. simpl.
  destruct (is_substring target planned) eqn:E; [|reflexivity].
  apply is_substring_iff in E as (before & after & Heq).
  exfalso. exact (Hno _ _ Heq).
Qed.

Lemma find_target_misses (target : string) (misses rest : list value) :
  Forall (departs_at_another_time target) misses ->
  find_target target (misses ++ rest) = find_target target rest.
Proof.
  induction 1 as [|x misses Hx _ IH]; [reflexivity|].
  rewrite <- app_comm_cons, (find_target_miss _ _ _ Hx). exact IH.
Qed.

Lemma timetable_main_eq (offset : Z) (gcp_arg : string) (e : env) (w : world) :
  main offset gcp_arg e w =
  let w1 := log_event HttpGet w in
  match http_response e with
  | Raise RequestException => (Ok ("Error: The API response is invalid", 500), w1)
  | Raise ex => (Raise ex, w1)
  | Ok payload =>
      if is_None payload
      then (Ok ("Error: The API response is invalid", 500), w1)
      else
        match (events <- getitem payload "stopEvents" ;;
               stop_events <- iter events ;;
               find_target (format_target_time offset) stop_events)%result with
        | Raise ex => (Raise ex, w1)
        | Ok true => (Ok ("Complete.", 200), w1)
        | Ok false =>
            let w2 := log_event (SmtpSend EMAIL_BODY) w1 in
            match smtp_error e with
            | None => (Ok ("Complete.", 200), deliver EMAIL_BODY w2)
            | Some SMTPException => (Ok ("Error: Unable to send email.", 500), w2)
            | Some ex => (Raise ex, w2)
            end
        end
  end.
Proof.
  unfold main, mbind, fetch_data, try_catch, lift, ret. cbv zeta.
  destruct (http_response e) as [payload|[]]; try reflexivity.
  destruct (is_None payload); [reflexivity|].
  destruct (getitem payload "stopEvents") as [events|]; [|reflexivity].
  cbn [Py.bind]. destruct (iter events) as [stop_events|]; [|reflexivity].
  cbn [Py.bind].
  destruct (find_target (format_target_time offset) stop_events) as [[|]|];
    try reflexivity.
  cbn [negb]. unfold send_email, try_catch.
  destruct (smtp_error e) as [[]|]; reflexivity.
Qed.

(** X16. The planned departure is there: when, after stop events that depart at
    other times, one is met whose planned departure contains the target
    time anywhere in its text, the loop breaks: whatever follows in the
    feed is not looked at, no mail is sent, and the result is
    [("Complete.", 200)]. *)
Theorem departure_found_sends_no_mail (offset : Z) (gcp_arg : string)
    (e : env) (w : world) (payload : value)
    (misses : list value) (x : value) (rest : list value) :
  http_response e = Ok payload ->
  is_None payload = false ->
  (events <- getitem payload "stopEvents" ;; iter events)%result
    = Ok (misses ++ x :: rest)%list ->
  Forall (departs_at_another_time (format_target_time offset)) misses ->
  departs_at (format_target_time offset) x ->
  main offset gcp_arg e w = (Ok ("Complete.", 200), log_event HttpGet w).
Proof.
  intros Hresp Hnull Hevents Hmisses (before & after & Hx).
  rewrite timetable_main_eq, Hresp, Hnull. cbv zeta.
  destruct (getitem payload "stopEvents") as [events|]; [|discriminate].
  cbn [Py.bind] in Hevents |- *. rewrite Hevents. cbn [Py.bind].
  rewrite (find_target_misses _ _ _ Hmisses). simpl. rewrite Hx. simpl.
  replace (is_substring (format_target_time offset)
             (before ++ format_target_time offset ++ after)) with true
    by (symmetry; apply is_substring_iff; eauto).
  reflexivity.
Qed.

(** X17. The planned departure is missing: when no stop event (there may be
    none at all) has the target time in its planned departure, exactly one
    mail with the fixed text goes to the transport; the result is
    [("Complete.", 200)] when it is delivered and
    [("Error: Unable to send email.", 500)] when the session fails with
    [SMTPException]. *)
Theorem departure_missing_sends_alert (offset : Z) (gcp_arg : string)
    (e : env) (w : world) (payload : value) (stop_events : list value) :
  http_response e = Ok payload ->
  is_None payload = false ->
  (events <- getitem payload "stopEvents" ;; iter events)%result = Ok stop_events ->
  Forall (departs_at_another_time (format_target_time offset)) stop_events ->
  calls_between w (snd (main offset gcp_arg e w)) [HttpGet; SmtpSend EMAIL_BODY] /\
  (smtp_error e = None ->
   fst (main offset gcp_arg e w) = Ok ("Complete.", 200) /\
   outbox (snd (main offset gcp_arg e w)) = (outbox w ++ [EMAIL_BODY])%list) /\
  (smtp_error e = Some SMTPException ->
   fst (main offset gcp_arg e w) = Ok ("Error: Unable to send email.", 500) /\
   outbox (snd (main offset gcp_arg e w)) = outbox w).
Proof.
  intros Hresp Hnull Hevents Hmisses.
  rewrite timetable_main_eq, Hresp, Hnull. cbv zeta.
  destruct (getitem payload "stopEvents") as [events|]; [|discriminate].
  cbn [Py.bind] in Hevents |- *. rewrite Hevents. cbn [Py.bind].
  rewrite <- (app_nil_r stop_events), (find_target_misses _ _ _ Hmisses).
  cbn [find_target]. unfold calls_between.
  destruct (smtp_error e) as [[]|]; cbn [fst snd trace log_event deliver outbox];
    rewrite <- app_assoc; repeat split; intros; congruence.
Qed.

(** X18. A stop event that cannot be read stops the check without an alert:
    when, after stop events that depart at other times, one is met whose
    planned departure is missing or is no text, list or object, [main]
    raises, nothing having been caught, and no mail is sent. *)
Theorem unreadable_stop_event_raises (offset : Z) (gcp_arg : string)
    (e : env) (w : world) (payload : value)
    (misses : list value) (x : value) (rest : list value) :
  http_response e = Ok payload ->
  is_None payload = false ->
  (events <- getitem payload "stopEvents" ;; iter events)%result
    = Ok (misses ++ x :: rest)%list ->
  Forall (departs_at_another_time (format_target_time offset)) misses ->
  raises (planned <- getitem x "departureTimePlanned" ;;
          contains_str planned (format_target_time offset))%result ->
  exists ex, main offset gcp_arg e w = (Raise ex, log_event HttpGet w).
Proof.
  intros Hresp Hnull Hevents Hmisses Hx.
  rewrite timetable_main_eq, Hresp, Hnull. cbv zeta.
  destruct (getitem payload "stopEvents") as [events|]; [|discriminate].
  cbn [Py.bind] in Hevents |- *. rewrite Hevents. cbn [Py.bind].
  rewrite (find_target_misses _ _ _ Hmisses). cbn [find_target].
  destruct (getitem x "departureTimePlanned") as [planned|ex]; cbn [Py.bind] in *.
  - destruct (contains_str planned (format_target_time offset)) as [hit|ex];
      [contradiction|].
    exists ex. reflexivity.
  - exists ex. reflexivity.
Qed.

(** X19. No payload, no check: when the departure feed cannot be fetched the
    result is [("Error: The API response is invalid", 500)] and no mail is
    sent, although no departure has been found. *)
Theorem timetable_fetch_failure (offset : Z) (gcp_arg : string)
    (e : env) (w : world) :
  fst (fetch_data e w) = Ok JNull ->
  main offset gcp_arg e w =
    (Ok ("Error: The API response is invalid", 500), log_event HttpGet w).
Proof.
  intros Hfetch. rewrite timetable_main_eq. cbv zeta.
  unfold fetch_data, try_catch in Hfetch.
  destruct (http_response e) as [payload|[]]; simpl in Hfetch; try discriminate;
    try reflexivity.
  injection Hfetch as ->. reflexivity.
Qed.

End TimetableFacts.

Module TimetableFormat.
Import lightrail_timetable_alert.

(** X20. The target time always has the shape [HH:MM], five characters with the
    colon in the middle, so that it can occur in an ISO time stamp; for the
    two offsets of Sydney, UTC+10 and UTC+11 (daylight saving), it is 21:50
    and 20:50, the day before in UTC. *)
Theorem target_time_shape (sydney_utc_offset : Z) :
  String.length (format_target_time sydney_utc_offset) = 5%nat /\
  String.get 2 (format_target_time sydney_utc_offset) = Some ":"%char /\
  format_target_time 600 = "21:50" /\
  format_target_time 660 = "20:50".
Proof.
  assert (Hall : forallb
            (fun k =>
               let s := two_digits (Z.of_nat k / 60) ++ ":"
                        ++ two_digits (Z.of_nat k mod 60) in
               Nat.eqb (String.length s) 5
               && match String.get 2 s with
                  | Some ch => Ascii.eqb ch ":"%char
                  | None => false
                  end)
            (seq 0 1440) = true) by (vm_compute; reflexivity).
  rewrite forallb_forall in Hall.
  unfold format_target_time at 1 2. cbv zeta.
  set (m := (TARGET_DEPARTURE_HOUR * 60 + TARGET_DEPARTURE_MINUTES
             - sydney_utc_offset) mod 1440).
  assert (Hm : 0 <= m < 1440) by (apply Z.mod_pos_bound; lia).
  specialize (Hall (Z.to_nat m)). rewrite Z2Nat.id in Hall by lia.
  cbv zeta in Hall.
  assert (Hin : In (Z.to_nat m) (seq 0 1440)) by (apply in_seq; lia).
  apply Hall in Hin. apply andb_true_iff in Hin as [Hlen Hget].
  apply Nat.eqb_eq in Hlen.
  split; [exact Hlen|]. split; [|split; reflexivity].
  destruct (String.get 2 _) as [ch|]; [|discriminate].
  apply Ascii.eqb_eq in Hget. congruence.
Qed.

End TimetableFormat.

Section MoreWitnesses.
Import Host.
Import Samples.

Lemma relevance_ignores_order_witness :
  same_outcome
    (impacted_loop [informed "L2" 0; informed "IWLR-191" 1] false)
    (impacted_loop [informed "IWLR-191" 1; informed "L2" 0] false).
Proof.
  apply relevance_ignores_order. apply perm_swap.
Defined.

Lemma description_has_no_newline_witness :
  no_newline (description_html alert42) /\
  exists text,
    translation_text entity42 "descriptionText" = Ok (JStr text) /\
    list_ascii_of_string (description_html alert42) =
    filter (fun ch => negb (Ascii.eqb ch newline)) (list_ascii_of_string text).
Proof.
  apply (description_has_no_newline entity42). vm_compute. reflexivity.
Defined.

Lemma dates_come_from_first_and_last_period_witness :
  formatted_start_date alert44 =
    try_except
      (t <- getitem (period "1700000000" "1700003600") "start" ;; format_epoch t)%result
      (fun _ => "NULL") /\
  formatted_end_date alert44 =
    try_except
      (t <- getitem
              (last [JObj []; period "1700007200" "1700010800"]
                    (period "1700000000" "1700003600")) "end" ;;
       format_epoch t)%result
      (fun _ => "NULL").
Proof.
  apply (dates_come_from_first_and_last_period entity44 (alert_of entity44)).
  - vm_compute. reflexivity.
  - reflexivity.
  - reflexivity.
Defined.


Lemma inserted_alert_is_found_witness :
  exists w',
    (bigquery_interface.insert_values_into_table tt alert42 ;;;
     bigquery_interface.check_alert_id_is_unique tt alert42)%io
      (healthy feed42) stored_world = (Ok true, w') /\
    table w' =
      Some (Client.rows_of stored_world
            ++ [bigquery_interface.row_of alert42
                  (current_datetime (healthy feed42)
                     (List.length (trace stored_world)))])%list /\
    outbox w' = outbox stored_world.
Proof.
  apply (inserted_alert_is_found tt alert42 (healthy feed42) stored_world
           (Client.rows_of stored_world) "42"); reflexivity.
Defined.

Lemma setup_provisions_table_once_witness :
  table (snd (main_setup feed_with_bad (healthy feed_with_bad) empty_world))
    = Some (Client.rows_of empty_world) /\
  outbox (snd (main_setup feed_with_bad (healthy feed_with_bad) empty_world))
    = outbox empty_world /\
  calls_between empty_world
    (snd (main_setup feed_with_bad (healthy feed_with_bad) empty_world))
    (match table empty_world with
     | Some _ => [GetTable]
     | None => [GetTable; CreateTable]
     end) /\
  [entity42; JInt 5; entity43] = feed_entities feed_with_bad.
Proof.
  apply (setup_provisions_table_once feed_with_bad (healthy feed_with_bad)
           empty_world _ tt).
  reflexivity.
Defined.

Lemma only_relevant_alerts_are_stored_witness :
  only_relevant_rows
    (Client.rows_of
       (runs [healthy (feed_of [entity_l2; entity42]); mail_failing (feed_of [entity44])]
             stored_world)).
Proof.
  apply only_relevant_alerts_are_stored. repeat constructor.
Defined.

Lemma batch_is_what_was_persisted_witness :
  exists added,
    Client.rows_of
      (snd (main_loop tt [entity42; entity_l2; entity44] []
              (healthy feed42) stored_world))
      = (Client.rows_of stored_world ++ added)%list /\
    Forall2 (fun a r => exists now, r = bigquery_interface.row_of a now)
            [alert42; alert44] added.
Proof.
  apply (batch_is_what_was_persisted tt [entity42; entity_l2; entity44]
           (healthy feed42) stored_world).
  vm_compute. reflexivity.
Defined.

Lemma batch_has_distinct_ids_witness :
  NoDup (map alert_id [alert42; alert44]).
Proof.
  apply (batch_has_distinct_ids tt [entity42; entity44; entity42]
           (healthy feed42) stored_world
           (snd (main_loop tt [entity42; entity44; entity42] []
                   (healthy feed42) stored_world))).
  - repeat apply Forall_cons; try apply Forall_nil;
      intros v Hv; simpl in Hv; injection Hv as <-; eexists; reflexivity.
  - vm_compute. reflexivity.
Defined.

Lemma irrelevant_feed_leaves_store_alone_witness :
  run (store_failing_at 5 (feed_of [entity_l2])) stored_world
    = (Ok ("Complete.", 200), at_loop stored_world) /\
  table (at_loop stored_world) = Some (Client.rows_of stored_world) /\
  outbox (at_loop stored_world) = outbox stored_world.
Proof.
  apply (irrelevant_feed_leaves_store_alone _ _ _ [entity_l2]).
  - exists (feed_of [entity_l2]). split; [reflexivity|]. split; reflexivity.
  - apply Forall_cons; [|apply Forall_nil].
    exists alert_l2. split; [vm_compute|]; reflexivity.
Defined.

Lemma main_results_witness :
  ("Error: Unable to process result " ++ py_str (JInt 5) = "Complete." /\ 500 = 200) \/
  (500 = 500 /\
   ("Error: Unable to process result " ++ py_str (JInt 5)
      = "Error: The API response is invalid" \/
    "Error: Unable to process result " ++ py_str (JInt 5)
      = "Error: Unable to send email." \/
    exists payload pre bad post,
      http_response (healthy feed_with_bad) = Ok payload /\
      feed_entities payload = (pre ++ bad :: post)%list /\
      Forall (fun entity => process_response_alert entity <> None) pre /\
      process_response_alert bad = None /\
      "Error: Unable to process result " ++ py_str (JInt 5)
        = "Error: Unable to process result " ++ py_str bad)).
Proof.
  apply (main_results (healthy feed_with_bad) empty_table).
  vm_compute. reflexivity.
Defined.

Lemma fetch_exception_escapes_witness :
  fetch_data (http_raising ValueError) stored_world
    = (Raise ValueError, log_event HttpGet stored_world) /\
  run (http_raising ValueError) stored_world
    = (Raise ValueError, log_event HttpGet stored_world).
Proof.
  apply fetch_exception_escapes; [reflexivity | discriminate].
Defined.

Lemma payload_without_entities_raises_witness :
  run (healthy (JObj [("header", JObj [])])) stored_world
    = (Raise KeyError, log_event HttpGet stored_world).
Proof.
  apply (payload_without_entities_raises _ _ (JObj [("header", JObj [])]));
    reflexivity.
Defined.

Lemma transport_error_escapes_witness :
  run (smtp_raising OSError feed42) empty_table
    = (Raise OSError,
       log_event (SmtpSend (render [alert42]))
         (snd (main_loop tt [entity42] [] (smtp_raising OSError feed42)
                 (at_loop empty_table)))).
Proof.
  apply (transport_error_escapes (smtp_raising OSError feed42) empty_table
           [entity42] (at_loop empty_table)).
  - exists feed42. split; [reflexivity|]. split; reflexivity.
  - vm_compute. reflexivity.
  - discriminate.
  - reflexivity.
  - discriminate.
Defined.

End MoreWitnesses.

Section TimetableWitnesses.
Import Host.
Import Samples.

Lemma another_time (target planned : string) :
  lightrail_timetable_alert.is_substring target planned = false ->
  departs_at_another_time target (stop_event planned).
Proof.
  intros Hno. exists planned. split; [reflexivity|].
  intros before after Heq.
  assert (Hyes : lightrail_timetable_alert.is_substring target planned = true)
    by (apply TimetableFacts.is_substring_iff; eauto).
  congruence.
Defined.

Lemma departure_found_sends_no_mail_witness :
  lightrail_timetable_alert.main 660 "Running locally."
    (healthy (departures [stop_event "2024-03-01T20:35:00Z";
                          stop_event "2024-03-01T20:50:00Z";
                          JInt 3])) empty_world
  = (Ok ("Complete.", 200), log_event HttpGet empty_world).
Proof.
  apply (TimetableFacts.departure_found_sends_no_mail 660 _ _ _
           (departures [stop_event "2024-03-01T20:35:00Z";
                        stop_event "2024-03-01T20:50:00Z";
                        JInt 3])
           [stop_event "2024-03-01T20:35:00Z"]
           (stop_event "2024-03-01T20:50:00Z")
           [JInt 3]).
  - reflexivity.
  - reflexivity.
  - reflexivity.
  - apply Forall_cons; [|apply Forall_nil]. apply another_time. reflexivity.
  - exists "2024-03-01T", ":00Z". reflexivity.
Defined.

Lemma departure_missing_sends_alert_witness :
  calls_between empty_world
    (snd (lightrail_timetable_alert.main 600 "Running locally."
            (healthy (departures [stop_event "2024-03-01T20:35:00Z";
                                  stop_event "2024-03-01T20:50:00Z"])) empty_world))
    [HttpGet; SmtpSend lightrail_timetable_alert.EMAIL_BODY] /\
  (smtp_error (healthy (departures [stop_event "2024-03-01T20:35:00Z";
                                    stop_event "2024-03-01T20:50:00Z"])) = None ->
   fst (lightrail_timetable_alert.main 600 "Running locally."
          (healthy (departures [stop_event "2024-03-01T20:35:00Z";
                                stop_event "2024-03-01T20:50:00Z"])) empty_world)
     = Ok ("Complete.", 200) /\
   outbox (snd (lightrail_timetable_alert.main 600 "Running locally."
                  (healthy (departures [stop_event "2024-03-01T20:35:00Z";
                                        stop_event "2024-03-01T20:50:00Z"]))
                  empty_world))
     = (outbox empty_world ++ [lightrail_timetable_alert.EMAIL_BODY])%list) /\
  (smtp_error (healthy (departures [stop_event "2024-03-01T20:35:00Z";
                                    stop_event "2024-03-01T20:50:00Z"]))
     = Some SMTPException ->
   fst (lightrail_timetable_alert.main 600 "Running locally."
          (healthy (departures [stop_event "2024-03-01T20:35:00Z";
                                stop_event "2024-03-01T20:50:00Z"])) empty_world)
     = Ok ("Error: Unable to send email.", 500) /\
   outbox (snd (lightrail_timetable_alert.main 600 "Running locally."
                  (healthy (departures [stop_event "2024-03-01T20:35:00Z";
                                        stop_event "2024-03-01T20:50:00Z"]))
                  empty_world))
     = outbox empty_world).
Proof.
  apply (TimetableFacts.departure_missing_sends_alert 600 _ _ _
           (departures [stop_event "2024-03-01T20:35:00Z";
                        stop_event "2024-03-01T20:50:00Z"])
           [stop_event "2024-03-01T20:35:00Z"; stop_event "2024-03-01T20:50:00Z"]).
  - reflexivity.
  - reflexivity.
  - reflexivity.
  - apply Forall_cons; [|apply Forall_cons; [|apply Forall_nil]];
      apply another_time; reflexivity.
Defined.

Lemma unreadable_stop_event_raises_witness :
  exists ex,
    lightrail_timetable_alert.main 660 "Running locally."
      (healthy (departures [stop_event "2024-03-01T20:35:00Z";
                            JObj [("departureTimeEstimated", JStr "2024-03-01T20:50:00Z")];
                            stop_event "2024-03-01T20:50:00Z"])) empty_world
    = (Raise ex, log_event HttpGet empty_world).
Proof.
  apply (TimetableFacts.unreadable_stop_event_raises 660 _ _ _
           (departures [stop_event "2024-03-01T20:35:00Z";
                        JObj [("departureTimeEstimated", JStr "2024-03-01T20:50:00Z")];
                        stop_event "2024-03-01T20:50:00Z"])
           [stop_event "2024-03-01T20:35:00Z"]
           (JObj [("departureTimeEstimated", JStr "2024-03-01T20:50:00Z")])
           [stop_event "2024-03-01T20:50:00Z"]).
  - reflexivity.
  - reflexivity.
  - reflexivity.
  - apply Forall_cons; [|apply Forall_nil]. apply another_time. reflexivity.
  - exact I.
Defined.

Lemma timetable_fetch_failure_witness :
  lightrail_timetable_alert.main 660 "Running locally." feed_down empty_world
  = (Ok ("Error: The API response is invalid", 500), log_event HttpGet empty_world).
Proof.
  apply TimetableFacts.timetable_fetch_failure. reflexivity.
Defined.

End TimetableWitnesses.
